(** * Product search: vector search, LLM ranking and hybrid merge

    A shallow embedding of [search.py].  The program loads a catalog,
    indexes it in an in-memory vector index, and answers queries through
    three entry points: [search_products] (vector search with an optional
    brand filter), [semantic_search] (ranking by a language model reached
    over HTTP) and [hybrid_search] (both, merged and deduplicated by
    product name).

    Python values are modelled as the code uses them: integers are [Z],
    floats are binary64 [float]s that the program only passes around,
    strings are byte strings (UTF-8), dictionaries that must keep their
    insertion order are association lists, and every function that can
    raise or that talks to a collaborator lives in the monad [M], which
    records the calls made and ends in a value or in an exception. *)

From Stdlib Require Import ZArith PrimFloat Ascii String.
From stdpp Require Import base option list strings pretty gmap.

(** ** Python values *)

(** A JSON number as [json.load] yields it: an [int] or a [float]. *)
Inductive number :=
| NInt (z : Z)
| NFloat (f : float).

(** What [json.loads] returns. *)
#[local] Unset Elimination Schemes.
Inductive json :=
| JNull
| JBool (b : bool)
| JInt (z : Z)
| JFloat (f : float)
| JStr (s : string)
| JList (l : list json)
| JDict (d : list (string * json)).
#[local] Set Elimination Schemes.

(** The exceptions the program can meet; all derive from [Exception]. *)
Inductive exn :=
| KeyError
| IndexError
| TypeError
| ValueError
| JSONDecodeError
| UnicodeDecodeError
| HTTPStatusError
| RequestError.

Inductive result (A : Type) :=
| Ok (a : A)
| Raise (e : exn).
Arguments Ok {A} a.
Arguments Raise {A} e.

(** A catalog entry of [products.json]: a dictionary read through the
    keys [name], [description], [price], [brand] and [category]. *)
Record product := Product {
  p_name : string;
  p_description : string;
  p_price : number;
  p_brand : string;
  p_category : string;
}.

(** The dictionary [search_products] builds for each hit. *)
Record search_result := SearchResult {
  r_name : string;
  r_price : number;
  r_brand : string;
  r_category : string;
  r_score : float;
}.

(** An element of [vector_results + semantic_results]: either a dictionary
    built by [search_products] or a catalog entry. *)
Inductive item :=
| VectorItem (r : search_result)
| CatalogItem (p : product).

(** [p["name"]] on either kind of dictionary. *)
Definition item_name (p : item) : string :=
  match p with
  | VectorItem r => r_name r
  | CatalogItem c => p_name c
  end.

(** ** Dictionaries in insertion order *)

Definition dict (V : Type) : Type := list (string * V).

Fixpoint dict_get {V} (k : string) (d : dict V) : option V :=
  match d with
  | [] => None
  | (k', v) :: d' => if String.eqb k k' then Some v else dict_get k d'
  end.

(** [k in d] *)
Definition dict_contains {V} (k : string) (d : dict V) : bool :=
  match dict_get k d with
  | Some _ => true
  | None => false
  end.

(** [d[k] = v]: an existing key keeps its position, a new one goes last. *)
Fixpoint dict_set {V} (k : string) (v : V) (d : dict V) : dict V :=
  match d with
  | [] => [(k, v)]
  | (k', v') :: d' =>
      if String.eqb k k' then (k, v) :: d' else (k', v') :: dict_set k v d'
  end.

(** [list(d.values())] *)
Definition dict_values {V} (d : dict V) : list V := d.*2.

(** ** Sequences *)

(** [l[i]] on a list: a negative index counts from the end. *)
Definition py_getitem {A} (l : list A) (i : Z) : result A :=
  let n := Z.of_nat (length l) in
  let j := if (i <? 0)%Z then (n + i)%Z else i in
  if ((0 <=? j) && (j <? n))%Z
  then match l !! Z.to_nat j with
       | Some x => Ok x
       | None => Raise IndexError
       end
  else Raise IndexError.

(** [l[:stop]]: a negative stop counts from the end. *)
Definition py_slice_to {A} (l : list A) (stop : Z) : list A :=
  if (stop <? 0)%Z
  then take (Z.to_nat (Z.of_nat (length l) + stop)) l
  else take (Z.to_nat stop) l.

(** [enumerate(l, start)] *)
Definition py_enumerate {A} (l : list A) (start : Z) : list (Z * A) :=
  imap (fun i x => ((start + Z.of_nat i)%Z, x)) l.

(** [sep.join(l)] *)
Definition py_join (sep : string) (l : list string) : string :=
  String.concat sep l.

Definition LF : string := String "010"%char EmptyString.
Definition DQUOTE : string := String "034"%char EmptyString.
Definition BACKSLASH : string := String "092"%char EmptyString.

(** ** Subscripts, iteration and arithmetic on JSON values *)

(** [v[k]] for a string key. *)
Definition getitem_key (v : json) (k : string) : result json :=
  match v with
  | JDict d =>
      match dict_get k d with
      | Some x => Ok x
      | None => Raise KeyError
      end
  | _ => Raise TypeError
  end.

(** [v[i]] for an integer. *)
Definition getitem_int (v : json) (i : Z) : result json :=
  match v with
  | JList l => py_getitem l i
  | JStr s =>
      match py_getitem (list_ascii_of_string s) i with
      | Ok c => Ok (JStr (String c EmptyString))
      | Raise e => Raise e
      end
  | JDict _ => Raise KeyError
  | _ => Raise TypeError
  end.

(** The elements a [for] loop sees. *)
Definition py_iter (v : json) : result (list json) :=
  match v with
  | JList l => Ok l
  | JStr s => Ok ((fun c => JStr (String c EmptyString)) <$> list_ascii_of_string s)
  | JDict d => Ok ((fun kv => JStr kv.1) <$> d)
  | _ => Raise TypeError
  end.

(** [v - 1] *)
Definition py_sub1 (v : json) : result json :=
  match v with
  | JInt z => Ok (JInt (z - 1))
  | JBool b => Ok (JInt (Z.b2z b - 1))
  | JFloat f => Ok (JFloat (f - 1)%float)
  | _ => Raise TypeError
  end.

(** [l[ix]] on a list, for an index computed at run time. *)
Definition list_getitem {A} (l : list A) (ix : json) : result A :=
  match ix with
  | JInt z => py_getitem l z
  | JBool b => py_getitem l (Z.b2z b)
  | _ => Raise TypeError
  end.

(** ** The vector index

    The index is the [qdrant_client] library run in memory; its code is
    not part of the program. The operations the program calls are modelled
    from the specification's description of the index (sections 2, 4.1,
    4.2 and 6): records [(id, vector, payload)] kept per collection,
    upsert keyed by id, and a similarity query with an optional
    payload-equality filter that returns at most [limit] records in
    descending score order. *)

Module Qdrant.

(** The payload dictionary stored with each point. *)
Record payload := Payload {
  pl_name : string;
  pl_price : number;
  pl_brand : string;
  pl_category : string;
}.

Inductive pvalue :=
| PStr (s : string)
| PNum (n : number).

Definition payload_get (k : string) (pl : payload) : option pvalue :=
  if String.eqb k "name" then Some (PStr (pl_name pl))
  else if String.eqb k "price" then Some (PNum (pl_price pl))
  else if String.eqb k "brand" then Some (PStr (pl_brand pl))
  else if String.eqb k "category" then Some (PStr (pl_category pl))
  else None.

Record PointStruct := Point {
  id : Z;
  vector : list float;
  payload_of : payload;
}.

(** [FieldCondition(key=k, match=MatchValue(value=v))] *)
Record FieldCondition := Condition {
  key : string;
  match_value : string;
}.

Record Filter := MkFilter {
  must : list FieldCondition;
}.

Record ScoredPoint := Scored {
  hit_id : Z;
  hit_payload : payload;
  score : float;
}.

(** A collection: the vector size it was created with and its points in
    insertion order. The distance is always [Distance.COSINE]. *)
Record collection := Collection {
  size : nat;
  points : list PointStruct;
}.

(** The collections of a client, by name. *)
Abbreviation client := (gmap string collection).

(** Modelled from the spec: the equality predicate of a filter, absent from
    the sources ("exact string match, case-sensitive as stored"). *)
Definition check_condition (c : FieldCondition) (pl : payload) : bool :=
  match payload_get (key c) pl with
  | Some (PStr s) => String.eqb s (match_value c)
  | _ => false
  end.

(** Modelled from the spec: a record passes an optional filter when it
    passes all of its equality predicates. *)
Definition check_filter (f : option Filter) (pl : payload) : bool :=
  match f with
  | None => true
  | Some f => forallb (fun c => check_condition c pl) (must f)
  end.

(** Modelled from the spec: results come "in descending similarity-score
    order"; insertion into a list ranked that way. *)
Fixpoint insert_ranked (h : ScoredPoint) (l : list ScoredPoint) : list ScoredPoint :=
  match l with
  | [] => [h]
  | h' :: l' =>
      if (score h' <=? score h)%float
      then h :: h' :: l'
      else h' :: insert_ranked h l'
  end.

Definition rank (l : list ScoredPoint) : list ScoredPoint :=
  foldr insert_ranked [] l.

(** Modelled from the spec: upsert is "keyed by" the record id; a point
    replaces the one with its id or is added last. *)
Fixpoint upsert_point (p : PointStruct) (l : list PointStruct) : list PointStruct :=
  match l with
  | [] => [p]
  | p' :: l' => if (id p =? id p')%Z then p :: l' else p' :: upsert_point p l'
  end.

(** Modelled from the spec: [client.get_collection], which fails when the
    collection does not exist. *)
Definition get_collection (c : client) (name : string) : result collection :=
  match c !! name with
  | Some col => Ok col
  | None => Raise ValueError
  end.

(** Modelled from the spec: [client.delete_collection]. *)
Definition delete_collection (c : client) (name : string) : client :=
  delete name c.

(** Modelled from the spec: [client.create_collection], the [recreate]
    of section 6 once the old collection is gone: an empty collection of
    the given vector size. *)
Definition create_collection (c : client) (name : string) (sz : nat) : result client :=
  match c !! name with
  | Some _ => Raise ValueError
  | None => Ok (<[name := Collection sz []]> c)
  end.

(** Modelled from the spec: [client.upsert], all records in one batch. *)
Definition upsert (c : client) (name : string) (pts : list PointStruct) : result client :=
  match c !! name with
  | Some col =>
      Ok (<[name := Collection (size col) (foldl (fun l p => upsert_point p l) (points col) pts)]> c)
  | None => Raise ValueError
  end.

(** Modelled from the spec: [client.search], the [query] of section 6:
    the points passing the filter, scored against the query vector by
    [sim], ranked by descending score, cut at [limit]; fewer matches than
    [limit] are all returned, none is an empty list. *)
Definition search (sim : list float -> list float -> float) (c : client)
    (name : string) (query_vector : list float) (query_filter : option Filter)
    (limit : Z) : result (list ScoredPoint) :=
  match c !! name with
  | Some col =>
      let passing := filter (fun p => check_filter query_filter (payload_of p) = true) (points col) in
      let scored := (fun p => Scored (id p) (payload_of p) (sim query_vector (vector p))) <$> passing in
      Ok (take (Z.to_nat limit) (rank scored))
  | None => Raise ValueError
  end.

End Qdrant.

(** ** Collaborators and effects *)

(** The request handed to [http_client.post]. *)
Record request := Request {
  url : string;
  headers : list (string * string);
  json_payload : json;
  timeout : Z;
}.

(** What the HTTP client does with a request: it fails to deliver it
    (connection error, timeout) or it returns a response. *)
Inductive http_reply :=
| NoResponse
| Response (status_code : Z) (text : string).

(** The collaborators of the program. *)
Class services := Services {
  (** [encoder.encode(text).tolist()] *)
  encode : string -> list float;
  (** [encoder.get_sentence_embedding_dimension()] *)
  get_sentence_embedding_dimension : nat;
  (** the similarity the index computes for [Distance.COSINE] *)
  cosine : list float -> list float -> float;
  (** [os.getenv("OPENROUTER_API_KEY")] *)
  OPENROUTER_API_KEY : option string;
  (** the service behind [OPENROUTER_API_URL] *)
  post : request -> http_reply;
  (** [json.loads]: the decoded value, or [None] when it raises *)
  json_loads : string -> option json;
  (** whether the bytes of a response body are text in the encoding
      [json.loads] detects for them; read when decoding the body fails, to
      tell a [JSONDecodeError] from a [UnicodeDecodeError] *)
  decodes : string -> bool;
  (** [str] of a [float] *)
  str_float : float -> string;
}.

(** The calls a run makes to its collaborators, and what it prints. *)
Inductive event :=
| EncodeCall (text : string)
| GetCollectionCall (name : string)
| DeleteCollectionCall (name : string)
| CreateCollectionCall (name : string) (sz : nat)
| UpsertCall (name : string) (pts : list Qdrant.PointStruct)
| SearchCall (name : string) (query_vector : list float)
    (query_filter : option Qdrant.Filter) (limit : Z)
| PostCall (req : request)
| PrintError (e : exn).

(** A computation: the events it produced, then its value or the
    exception that ended it. *)
Definition M (A : Type) : Type := list event * result A.

Definition ret {A} (a : A) : M A := ([], Ok a).

Definition raise {A} (e : exn) : M A := ([], Raise e).

Definition bind {A B} (m : M A) (k : A -> M B) : M B :=
  match m with
  | (t, Ok a) => let '(t', r) := k a in (t ++ t', r)
  | (t, Raise e) => (t, Raise e)
  end.

(** [try: m except Exception as e: h e] *)
Definition try_except {A} (m : M A) (h : exn -> M A) : M A :=
  match m with
  | (t, Ok a) => (t, Ok a)
  | (t, Raise e) => let '(t', r) := h e in (t ++ t', r)
  end.

Definition emit (e : event) : M unit := ([e], Ok tt).

Definition lift {A} (r : result A) : M A := ([], r).

Notation "x <- m ;; k" := (bind m (fun x => k))
  (at level 100, m at next level, right associativity).
Notation "m ;;; k" := (bind m (fun _ => k))
  (at level 100, right associativity).

(** The events of a computation and how it ended. *)
Definition calls {A} (m : M A) : list event := m.1.
Definition outcome {A} (m : M A) : result A := m.2.

(** A list comprehension whose element expression may raise. *)
Fixpoint comprehension {A B} (f : A -> M B) (l : list A) : M (list B) :=
  match l with
  | [] => ret []
  | x :: l' =>
      y <- f x ;;
      ys <- comprehension f l' ;;
      ret (y :: ys)
  end.

(** [str] of a JSON number. *)
Definition str_number `{services} (n : number) : string :=
  match n with
  | NInt z => pretty z
  | NFloat f => str_float f
  end.

(** [str] of an optional string, as an f-string renders it. *)
Definition str_option (o : option string) : string :=
  match o with
  | Some s => s
  | None => "None"
  end.

Section Program.
Context `{W : services}.

(** *** Settings *)

Definition COLLECTION_NAME : string := "products".
Definition OPENROUTER_API_URL : string :=
  "https://openrouter.ai/api/v1/chat/completions".

(** *** Calls to the collaborators *)

Definition encoder_encode (text : string) : M (list float) :=
  emit (EncodeCall text) ;;; ret (encode text).

Definition client_get_collection (c : Qdrant.client) (name : string) : M Qdrant.collection :=
  emit (GetCollectionCall name) ;;; lift (Qdrant.get_collection c name).

Definition client_delete_collection (c : Qdrant.client) (name : string) : M Qdrant.client :=
  emit (DeleteCollectionCall name) ;;; ret (Qdrant.delete_collection c name).

Definition client_create_collection (c : Qdrant.client) (name : string) (sz : nat) : M Qdrant.client :=
  emit (CreateCollectionCall name sz) ;;; lift (Qdrant.create_collection c name sz).

Definition client_upsert (c : Qdrant.client) (name : string)
    (pts : list Qdrant.PointStruct) : M Qdrant.client :=
  emit (UpsertCall name pts) ;;; lift (Qdrant.upsert c name pts).

Definition client_search (c : Qdrant.client) (name : string) (query_vector : list float)
    (query_filter : option Qdrant.Filter) (limit : Z) : M (list Qdrant.ScoredPoint) :=
  emit (SearchCall name query_vector query_filter limit) ;;;
  lift (Qdrant.search cosine c name query_vector query_filter limit).

Definition http_post (req : request) : M http_reply :=
  emit (PostCall req) ;;;
  match post req with
  | NoResponse => raise RequestError
  | r => ret r
  end.

(** [response.raise_for_status()] *)
Definition raise_for_status (r : http_reply) : M unit :=
  match r with
  | Response status _ =>
      if ((200 <=? status) && (status <=? 299))%Z then ret tt else raise HTTPStatusError
  | NoResponse => raise RequestError
  end.

(** [response.json()]: [json.loads] on the bytes of the body, which first
    decodes them to text and then parses the text. *)
Definition response_json (r : http_reply) : M json :=
  match r with
  | Response _ body =>
      match json_loads body with
      | Some v => ret v
      | None => if decodes body then raise JSONDecodeError else raise UnicodeDecodeError
      end
  | NoResponse => raise RequestError
  end.

(** [json.loads(v)]: the argument has to be a string, which is text
    already. *)
Definition py_json_loads (v : json) : M json :=
  match v with
  | JStr s =>
      match json_loads s with
      | Some x => ret x
      | None => raise JSONDecodeError
      end
  | _ => raise TypeError
  end.

(** *** The module's globals *)

(** [products] and [client] once the module has been loaded. *)
Record globals := Globals {
  products : list product;
  client : Qdrant.client;
}.

(** The point built for the catalog entry at position [idx]. *)
Definition make_point (idx : Z) (p : product) : M Qdrant.PointStruct :=
  let text := (p_name p +:+ " " +:+ p_description p)%string in
  vector <- encoder_encode text ;;
  ret (Qdrant.Point idx vector
         (Qdrant.Payload (p_name p) (p_price p) (p_brand p) (p_category p))).

(** The module-level code, for the catalog read from [products.json]. *)
Definition load_module (catalog : list product) : M globals :=
  let client0 : Qdrant.client := ∅ in
  client1 <- try_except
               (client_get_collection client0 COLLECTION_NAME ;;;
                client_delete_collection client0 COLLECTION_NAME)
               (fun _ => ret client0) ;;
  client2 <- client_create_collection client1 COLLECTION_NAME
               get_sentence_embedding_dimension ;;
  points <- comprehension (fun ip => make_point ip.1 ip.2) (py_enumerate catalog 0) ;;
  client3 <- client_upsert client2 COLLECTION_NAME points ;;
  ret (Globals catalog client3).

(** *** Vector search *)

(** The filter built from [brand_filter]: none unless the argument is a
    non-empty string. *)
Definition qdrant_filter_of (brand_filter : option string) : option Qdrant.Filter :=
  match brand_filter with
  | Some b =>
      if String.eqb b "" then None
      else Some (Qdrant.MkFilter [Qdrant.Condition "brand" b])
  | None => None
  end.

(** The dictionary returned for a hit. *)
Definition result_of_hit (hit : Qdrant.ScoredPoint) : search_result :=
  SearchResult (Qdrant.pl_name (Qdrant.hit_payload hit))
               (Qdrant.pl_price (Qdrant.hit_payload hit))
               (Qdrant.pl_brand (Qdrant.hit_payload hit))
               (Qdrant.pl_category (Qdrant.hit_payload hit))
               (Qdrant.score hit).

Definition search_products (G : globals) (query : string) (top_k : Z)
    (brand_filter : option string) : M (list search_result) :=
  query_vector <- encoder_encode query ;;
  let qdrant_filter := qdrant_filter_of brand_filter in
  results <- client_search (client G) COLLECTION_NAME query_vector qdrant_filter top_k ;;
  ret (result_of_hit <$> results).

(** *** Ranking by the language model *)

(** One line of the catalog listing. *)
Definition context_line (idx : Z) (p : product) : string :=
  (pretty idx +:+ ". " +:+ p_name p +:+ " (" +:+ p_brand p +:+ "): "
     +:+ p_description p +:+ " | $" +:+ str_number (p_price p))%string.

Definition build_context (products_data : list product) : string :=
  py_join LF ((fun ip => context_line ip.1 ip.2) <$> py_enumerate products_data 1).

Definition build_prompt (query : string) (context : string) (top_k : Z) : string :=
  ("Аналізуй список товарів та знайди " +:+ pretty top_k
     +:+ " найбільш відповідних для запиту:" +:+ LF
     +:+ "    " +:+ LF
     +:+ "    Запит: " +:+ query +:+ LF
     +:+ "    " +:+ LF
     +:+ "    Доступні товари:" +:+ LF
     +:+ "    " +:+ context +:+ LF
     +:+ "    " +:+ LF
     +:+ "    Поверни JSON з індексами " +:+ pretty top_k
     +:+ " найбільш релевантних товарів у порядку відповідності." +:+ LF
     +:+ "    Формат: {" +:+ DQUOTE +:+ "results" +:+ DQUOTE
     +:+ ": [idx1, idx2, idx3]}")%string.

Definition build_request (prompt : string) : request :=
  Request OPENROUTER_API_URL
    [("Authorization", ("Bearer " +:+ str_option OPENROUTER_API_KEY)%string);
     ("Content-Type", "application/json")]
    (JDict [("model", JStr "anthropic/claude-3-haiku");
            ("messages", JList [JDict [("role", JStr "user"); ("content", JStr prompt)]]);
            ("response_format", JDict [("type", JStr "json_object")])])
    30.

(** The body of the [try] up to the assignment of [indices]. *)
Definition fetch_indices (prompt : string) : M json :=
  response <- http_post (build_request prompt) ;;
  raise_for_status response ;;;
  result <- response_json response ;;
  choices <- lift (getitem_key result "choices") ;;
  choice <- lift (getitem_int choices 0) ;;
  message <- lift (getitem_key choice "message") ;;
  content <- lift (getitem_key message "content") ;;
  parsed <- py_json_loads content ;;
  lift (getitem_key parsed "results").

(** [[products_data[i-1] for i in indices]] *)
Definition map_indices (products_data : list product) (indices : json) : M (list product) :=
  elements <- lift (py_iter indices) ;;
  comprehension
    (fun i => ix <- lift (py_sub1 i) ;; lift (list_getitem products_data ix))
    elements.

Definition semantic_search (query : string) (products_data : list product)
    (top_k : Z) : M (list product) :=
  let context := build_context products_data in
  let prompt := build_prompt query context top_k in
  try_except
    (indices <- fetch_indices prompt ;;
     map_indices products_data indices)
    (fun e => emit (PrintError e) ;;; ret []).

(** *** Hybrid search *)

(** The loop that fills [combined], and the slice returned. *)
Definition merge_results (vector_results : list search_result)
    (semantic_results : list product) (top_k : Z) : list item :=
  let combined :=
    foldl (fun (combined : dict item) p =>
             if negb (dict_contains (item_name p) combined)
             then dict_set (item_name p) p combined
             else combined)
          [] ((VectorItem <$> vector_results) ++ (CatalogItem <$> semantic_results)) in
  py_slice_to (dict_values combined) top_k.

Definition hybrid_search (G : globals) (query : string) (top_k : Z) : M (list item) :=
  vector_results <- search_products G query top_k None ;;
  semantic_results <- semantic_search query (products G) top_k ;;
  ret (merge_results vector_results semantic_results top_k).

End Program.

(** ** The specification's wording

    What follows is written from the text of the specification, to be
    compared with the program above. *)

(** Hybrid merge: going through the list in order, keep the first
    occurrence of each distinct product name and discard later ones;
    [seen] holds the names already kept. *)
Fixpoint first_occurrences (seen : list string) (l : list item) : list item :=
  match l with
  | [] => []
  | p :: l' =>
      if bool_decide (item_name p ∈ seen)
      then first_occurrences seen l'
      else p :: first_occurrences (item_name p :: seen) l'
  end.

(** The first record of the vector results that carries [name]. *)
Definition first_named (name : string) (vector_results : list search_result)
    : option search_result :=
  snd <$> list_find (fun r => r_name r = name) vector_results.


(** Indexer: the record kept for the product at position [i]. *)
Definition indexed_point `{services} (i : nat) (p : product) : Qdrant.PointStruct :=
  Qdrant.Point (Z.of_nat i)
    (encode (p_name p +:+ " " +:+ p_description p)%string)
    (Qdrant.Payload (p_name p) (p_price p) (p_brand p) (p_category p)).

(** The index is in range when it lies in [1, N]. *)
Definition in_range (n : nat) (i : Z) : Prop := (1 ≤ i ≤ Z.of_nat n)%Z.

(** ** A mocked deployment

    Concrete collaborators and a small catalog, used to run the program:
    the embedding of a text is its length and a constant, the similarity is
    a dot product, and the language model answers every prompt with the
    indices it was built with. *)

Module Mock.

Definition phone_a : product :=
  Product "Phone A" "A small phone" (NInt 100) "X" "phones".
Definition phone_b : product :=
  Product "Phone B" "A big phone" (NInt 200) "Y" "phones".
Definition laptop_c : product :=
  Product "Laptop C" "A light laptop" (NFloat 999.5) "X" "laptops".

Definition catalog : list product := [phone_a; phone_b; laptop_c].

Fixpoint float_of_nat (n : nat) : float :=
  match n with
  | O => 0%float
  | S n' => (float_of_nat n' + 1)%float
  end.

Definition embed (text : string) : list float :=
  [float_of_nat (String.length text); 1%float].

Fixpoint dot (u v : list float) : float :=
  match u, v with
  | x :: u', y :: v' => (x * y + dot u' v')%float
  | _, _ => 0%float
  end.

(** The message content the model returns for the indices [idxs]. *)
Definition content (idxs : list Z) : string :=
  ("{" +:+ DQUOTE +:+ "results" +:+ DQUOTE +:+ ": ["
     +:+ py_join ", " (pretty <$> idxs) +:+ "]}")%string.

(** The response body that wraps it, with the quotes of the content
    escaped. *)
Definition body (idxs : list Z) : string :=
  ("{" +:+ DQUOTE +:+ "choices" +:+ DQUOTE +:+ ": [{" +:+ DQUOTE +:+ "message"
     +:+ DQUOTE +:+ ": {" +:+ DQUOTE +:+ "content" +:+ DQUOTE +:+ ": "
     +:+ DQUOTE +:+ "{" +:+ BACKSLASH +:+ DQUOTE +:+ "results" +:+ BACKSLASH
     +:+ DQUOTE +:+ ": ["
     +:+ py_join ", " (pretty <$> idxs) +:+ "]}" +:+ DQUOTE +:+ "}}]}")%string.

(** A decoder for the two documents of the mocked exchange. *)
Definition loads (idxs : list Z) (s : string) : option json :=
  if String.eqb s (body idxs)
  then Some (JDict [("choices",
               JList [JDict [("message", JDict [("content", JStr (content idxs))])]])])
  else if String.eqb s (content idxs)
  then Some (JDict [("results", JList (JInt <$> idxs))])
  else None.

(** The deployment in which the model answers with [idxs]. *)
Definition answering (idxs : list Z) : services :=
  {| encode := embed;
     get_sentence_embedding_dimension := 2;
     cosine := dot;
     OPENROUTER_API_KEY := Some "sk-test";
     post := fun _ => Response 200 (body idxs);
     json_loads := loads idxs;
     decodes := fun _ => true;
     str_float := fun _ => "999.5" |}.

(** The deployment in which the request times out. *)
Definition unreachable : services :=
  {| encode := embed;
     get_sentence_embedding_dimension := 2;
     cosine := dot;
     OPENROUTER_API_KEY := None;
     post := fun _ => NoResponse;
     json_loads := fun _ => None;
     decodes := fun _ => true;
     str_float := fun _ => "999.5" |}.

(** The globals after loading the module on [catalog]. *)
Definition indexed_client : Qdrant.client :=
  {[ "products" :=
       Qdrant.Collection 2
         [Qdrant.Point 0 (embed "Phone A A small phone")
            (Qdrant.Payload "Phone A" (NInt 100) "X" "phones");
          Qdrant.Point 1 (embed "Phone B A big phone")
            (Qdrant.Payload "Phone B" (NInt 200) "Y" "phones");
          Qdrant.Point 2 (embed "Laptop C A light laptop")
            (Qdrant.Payload "Laptop C" (NFloat 999.5) "X" "laptops")] ]}.

Definition loaded : globals := Globals catalog indexed_client.

End Mock.


(** ** The interactive loop *)

(** What a session shows on the console, interleaved with the calls made
    to the collaborators. *)
Inductive console :=
| Asked (prompt answer : string)
| AskedAtEnd (prompt : string)
| Printed (line : string)
| Call (e : event).

(** How [main] ends: the loop is left by [break], [input] meets the end of
    the input, or a search raises. *)
Inductive ending :=
| Exited
| EOFError
| Raised (e : exn).

Definition ascii_lower (c : ascii) : ascii :=
  let n := nat_of_ascii c in
  if (65 <=? n)%nat && (n <=? 90)%nat then ascii_of_nat (n + 32) else c.

Fixpoint lower_bytes (s : string) : string :=
  match s with
  | EmptyString => EmptyString
  | String c s' => String (ascii_lower c) (lower_bytes s')
  end.

(** [query.lower() == 'exit']. Only the letters E, X, I and T lower to the
    letters of the word, and they are single bytes, so lowering the ASCII
    letters of the UTF-8 bytes decides the comparison. *)
Definition is_exit (query : string) : bool :=
  String.eqb (lower_bytes query) "exit".

(** [p["brand"]] and [p["price"]] on either kind of dictionary. *)
Definition item_brand (p : item) : string :=
  match p with
  | VectorItem r => r_brand r
  | CatalogItem c => p_brand c
  end.

Definition item_price (p : item) : number :=
  match p with
  | VectorItem r => r_price r
  | CatalogItem c => p_price c
  end.

Section Console.
Context `{W : services}.

Definition QUERY_PROMPT : string := (LF +:+ "Пошук (або 'exit'): ")%string.
Definition CHOICE_PROMPT : string := "Оберіть тип пошуку: ".

(** The lines printed before the choice is read. *)
Definition menu : list console :=
  [Printed (LF +:+ "1. Векторний пошук")%string;
   Printed "2. Семантичний пошук";
   Printed "3. Гібридний пошук"].

(** The search a choice selects, with the default [top_k = 3]; [None] for
    any other choice. *)
Definition dispatch (G : globals) (query choice : string) : option (M (list item)) :=
  if String.eqb choice "1"
  then Some (results <- search_products G query 3 None ;; ret (VectorItem <$> results))
  else if String.eqb choice "2"
  then Some (results <- semantic_search query (products G) 3 ;; ret (CatalogItem <$> results))
  else if String.eqb choice "3"
  then Some (hybrid_search G query 3)
  else None.

Definition result_line (idx : Z) (p : item) : string :=
  (pretty idx +:+ ". " +:+ item_name p +:+ " (" +:+ item_brand p +:+ ") - $"
     +:+ str_number (item_price p))%string.

(** What is printed for the results of a search. *)
Definition report (results : list item) : list console :=
  match results with
  | [] => [Printed "Нічого не знайдено"]
  | _ :: _ =>
      Printed (LF +:+ "Результати:")%string
      :: ((fun ip => Printed (result_line ip.1 ip.2)) <$> py_enumerate results 1)
  end.

(** The loop of [main], run on the lines that [input] will read. *)
Fixpoint main (G : globals) (inputs : list string) : list console * ending :=
  match inputs with
  | [] => ([AskedAtEnd QUERY_PROMPT], EOFError)
  | query :: inputs1 =>
      if is_exit query then ([Asked QUERY_PROMPT query], Exited)
      else
        match inputs1 with
        | [] => (Asked QUERY_PROMPT query :: menu ++ [AskedAtEnd CHOICE_PROMPT], EOFError)
        | choice :: inputs2 =>
            let asked := Asked QUERY_PROMPT query :: menu ++ [Asked CHOICE_PROMPT choice] in
            match dispatch G query choice with
            | None =>
                let '(t, r) := main G inputs2 in
                (asked ++ Printed "Невірний вибір" :: t, r)
            | Some (evs, Ok results) =>
                let '(t, r) := main G inputs2 in
                (asked ++ (Call <$> evs) ++ report results ++ t, r)
            | Some (evs, Raise e) => (asked ++ (Call <$> evs), Raised e)
            end
        end
  end.

End Console.

(** The lines typed in a session of complete rounds, each a query and a
    choice. *)
Definition session (rounds : list (string * string)) : list string :=
  concat ((fun qc => [qc.1; qc.2]) <$> rounds).

(** ** Further wording *)

(** The dictionary that [search_products] returns for a product of the
    catalog: its payload fields and its similarity to the query. *)
Definition result_for `{services} (query : string) (p : product) : search_result :=
  SearchResult (p_name p) (p_price p) (p_brand p) (p_category p)
    (cosine (encode query) (encode (p_name p +:+ " " +:+ p_description p)%string)).

(** The integer an element of the index list stands for, if any; Python
    counts [true] as 1 and [false] as 0. *)
Definition index_value (v : json) : option Z :=
  match v with
  | JInt i => Some i
  | JBool b => Some (Z.b2z b)
  | _ => None
  end.

(** The position that Python reads for the 1-based index [i] in a list of
    [n] elements: [i - 1], counted from the end when negative. *)
Definition python_position (n : nat) (i : Z) : nat :=
  Z.to_nat (if (i <=? 0)%Z then Z.of_nat n + (i - 1) else i - 1)%Z.

(** ** Faulty deployments *)

Module Faults.

(** A deployment whose service gives the same reply to every request. *)
Definition replying (reply : http_reply) : services :=
  {| encode := Mock.embed;
     get_sentence_embedding_dimension := 2;
     cosine := Mock.dot;
     OPENROUTER_API_KEY := Some "sk-test";
     post := fun _ => reply;
     json_loads := Mock.loads [1]%Z;
     decodes := fun _ => true;
     str_float := fun _ => "999.5" |}.

(** A decoder for an exchange whose message content decodes to an object
    with [v] under the key [results]. *)
Definition loads (v : json) (s : string) : option json :=
  if String.eqb s "<body>"
  then Some (JDict [("choices",
               JList [JDict [("message", JDict [("content", JStr "<content>")])]])])
  else if String.eqb s "<content>"
  then Some (JDict [("results", v)])
  else None.

(** A deployment in which the model answers with the value [v]. *)
Definition answering (v : json) : services :=
  {| encode := Mock.embed;
     get_sentence_embedding_dimension := 2;
     cosine := Mock.dot;
     OPENROUTER_API_KEY := None;
     post := fun _ => Response 200 "<body>";
     json_loads := loads v;
     decodes := fun _ => true;
     str_float := fun _ => "999.5" |}.



(** The globals after loading the module on the empty catalog. *)
Definition loaded_empty : globals :=
  Globals [] {[ "products" := Qdrant.Collection 2 [] ]}.

End Faults.

(** * Properties *)

(** ** Computations *)

Section Computations.
Context {A B : Type}.
Implicit Types (m : M A) (k : A -> M B).

Lemma outcome_bind m k :
  outcome (bind m k) =
  match outcome m with
  | Ok a => outcome (k a)
  | Raise e => Raise e
  end.
Proof.
  destruct m as [t [a|e]]; unfold outcome; simpl; [|done]. by destruct (k a).
Qed.

Lemma calls_bind m k :
  calls (bind m k) =
  match outcome m with
  | Ok a => calls m ++ calls (k a)
  | Raise e => calls m
  end.
Proof.
  destruct m as [t [a|e]]; unfold calls, outcome; simpl; [|done]. by destruct (k a).
Qed.

Lemma bind_lift_Ok (a : A) k : bind (lift (Ok a)) k = k a.
Proof. unfold bind, lift. by destruct (k a). Qed.

Lemma try_except_returns m (h : exn -> M A) :
  (forall e, exists a, outcome (h e) = Ok a) ->
  exists a, outcome (try_except m h) = Ok a.
Proof.
  intros Hh. destruct m as [t [a|e]]; unfold outcome; simpl; [by eexists|].
  destruct (Hh e) as [a Ha]. unfold outcome in Ha.
  destruct (h e) as [t' r]; simpl in *. by eexists.
Qed.

End Computations.

(** ** Python sequences *)

Section Sequences.
Context {A : Type}.
Implicit Types (l : list A).

Lemma py_getitem_nonneg l (i : Z) x :
  l !! Z.to_nat i = Some x -> (0 ≤ i)%Z -> py_getitem l i = Ok x.
Proof.
  intros Hx Hi. unfold py_getitem.
  apply lookup_lt_Some in Hx as Hlt.
  rewrite (proj2 (Z.ltb_ge i 0)) by lia.
  rewrite (proj2 (Z.leb_le 0 i)) by lia.
  rewrite (proj2 (Z.ltb_lt i _)) by lia.
  simpl. by rewrite Hx.
Qed.

Lemma py_getitem_negative l (i : Z) x :
  l !! Z.to_nat (Z.of_nat (length l) + i) = Some x ->
  (- Z.of_nat (length l) ≤ i < 0)%Z -> py_getitem l i = Ok x.
Proof.
  intros Hx Hi. unfold py_getitem.
  rewrite (proj2 (Z.ltb_lt i 0)) by lia.
  rewrite (proj2 (Z.leb_le 0 _)) by lia.
  rewrite (proj2 (Z.ltb_lt _ _)) by lia.
  simpl. by rewrite Hx.
Qed.

Lemma py_getitem_out_of_range l (i : Z) :
  (Z.of_nat (length l) ≤ i ∨ i < - Z.of_nat (length l))%Z ->
  py_getitem l i = Raise IndexError.
Proof.
  intros Hi. unfold py_getitem.
  destruct (Z.ltb_spec i 0).
  - rewrite (proj2 (Z.leb_gt 0 _)) by lia. done.
  - rewrite (proj2 (Z.ltb_ge _ _)) by lia. by rewrite andb_false_r.
Qed.

Lemma py_slice_to_length l (k : Z) :
  (0 ≤ k)%Z -> (Z.of_nat (length (py_slice_to l k)) ≤ k)%Z.
Proof.
  intros Hk. unfold py_slice_to.
  rewrite (proj2 (Z.ltb_ge k 0)) by lia. rewrite length_take. lia.
Qed.

Lemma py_slice_to_nonneg l (k : Z) :
  (0 ≤ k)%Z -> py_slice_to l k = take (Z.to_nat k) l.
Proof. intros Hk. unfold py_slice_to. by rewrite (proj2 (Z.ltb_ge k 0)) by lia. Qed.

Lemma py_slice_to_sublist l (k : Z) : py_slice_to l k `sublist_of` l.
Proof. unfold py_slice_to. destruct (k <? 0)%Z; apply sublist_take. Qed.

End Sequences.

(** ** Dictionaries *)

Section Dictionaries.
Context {V : Type}.
Implicit Types (d : dict V) (k : string) (v : V).

Lemma dict_get_None k d : dict_get k d = None <-> k ∉ d.*1.
Proof.
  induction d as [|[k' v'] d IH]; simpl.
  - split; [intros _; apply not_elem_of_nil | done].
  - rewrite not_elem_of_cons. destruct (String.eqb_spec k k') as [->|Hne].
    + split; [done | intros [? _]; done].
    + rewrite IH. tauto.
Qed.

Lemma dict_contains_spec k d : dict_contains k d = bool_decide (k ∈ d.*1).
Proof.
  unfold dict_contains. destruct (dict_get k d) eqn:Hg.
  - symmetry. apply bool_decide_eq_true. destruct (decide (k ∈ d.*1)) as [|Hn]; [done|].
    apply dict_get_None in Hn. congruence.
  - symmetry. apply bool_decide_eq_false. by apply dict_get_None.
Qed.

Lemma dict_set_fresh k v d : k ∉ d.*1 -> dict_set k v d = d ++ [(k, v)].
Proof.
  induction d as [|[k' v'] d IH]; simpl; [done|].
  rewrite not_elem_of_cons. intros [Hne Hnin].
  destruct (String.eqb_spec k k'); [done|]. by rewrite IH.
Qed.

End Dictionaries.

(** ** First occurrences *)

Lemma first_occurrences_keep (seen : list string) (p : item) (l : list item) :
  item_name p ∉ seen ->
  first_occurrences seen (p :: l) = p :: first_occurrences (item_name p :: seen) l.
Proof. intros Hp. simpl. by rewrite bool_decide_eq_false_2. Qed.

Lemma first_occurrences_drop (seen : list string) (p : item) (l : list item) :
  item_name p ∈ seen ->
  first_occurrences seen (p :: l) = first_occurrences seen l.
Proof. intros Hp. simpl. by rewrite bool_decide_eq_true_2. Qed.

Lemma first_occurrences_seen (seen seen' : list string) (l : list item) :
  (forall x, x ∈ seen <-> x ∈ seen') ->
  first_occurrences seen l = first_occurrences seen' l.
Proof.
  revert seen seen'. induction l as [|p l IH]; intros seen seen' Hs; simpl; [done|].
  rewrite (bool_decide_ext _ _ (Hs (item_name p))).
  case_bool_decide.
  - by apply IH.
  - f_equal. apply IH. intros x. rewrite !elem_of_cons, Hs. done.
Qed.

Lemma first_occurrences_app (seen : list string) (l1 l2 : list item) :
  first_occurrences seen (l1 ++ l2) =
  first_occurrences seen l1 ++ first_occurrences ((item_name <$> l1) ++ seen) l2.
Proof.
  revert seen. induction l1 as [|p l1 IH]; intros seen; simpl; [done|].
  case_bool_decide as Hp.
  - rewrite IH. f_equal. apply first_occurrences_seen.
    intros x. rewrite !elem_of_app, elem_of_cons, elem_of_app.
    intuition (subst; auto).
  - simpl. f_equal. rewrite IH. f_equal. apply first_occurrences_seen.
    intros x. rewrite !elem_of_app, !elem_of_cons, elem_of_app. tauto.
Qed.

Lemma first_occurrences_sublist (seen : list string) (l : list item) :
  first_occurrences seen l `sublist_of` l.
Proof.
  revert seen. induction l as [|p l IH]; intros seen; simpl; [done|].
  case_bool_decide; [by apply sublist_cons | by apply sublist_skip].
Qed.

Lemma first_occurrences_unseen (seen : list string) (l : list item) (e : item) :
  e ∈ first_occurrences seen l -> item_name e ∉ seen.
Proof.
  revert seen. induction l as [|p l IH]; intros seen; simpl; [by intros ?%elem_of_nil|].
  case_bool_decide as Hp.
  - apply IH.
  - intros [->|Hin]%elem_of_cons; [done|].
    apply IH in Hin. rewrite not_elem_of_cons in Hin. tauto.
Qed.

Lemma first_occurrences_NoDup (seen : list string) (l : list item) :
  NoDup (item_name <$> first_occurrences seen l).
Proof.
  revert seen. induction l as [|p l IH]; intros seen; simpl; [constructor|].
  case_bool_decide as Hp; [apply IH|].
  rewrite fmap_cons. constructor; [|apply IH].
  intros (e & Hname & Hin)%list_elem_of_fmap.
  apply first_occurrences_unseen in Hin. rewrite <- Hname in Hin.
  apply Hin, elem_of_cons. by left.
Qed.

Lemma first_occurrences_length (seen : list string) (l : list item) :
  length (first_occurrences seen l) ≤ length l.
Proof. apply sublist_length, first_occurrences_sublist. Qed.

(** Every name of the list that was not seen before is kept. *)
Lemma first_occurrences_complete (seen : list string) (l : list item) (e : item) :
  e ∈ l -> item_name e ∉ seen ->
  exists e', e' ∈ first_occurrences seen l ∧ item_name e' = item_name e.
Proof.
  revert seen. induction l as [|p l IH]; intros seen; [by intros ?%elem_of_nil|].
  intros Hin Hns. simpl. case_bool_decide as Hp.
  - apply elem_of_cons in Hin as [->|Hin]; [done|]. by apply IH.
  - destruct (decide (item_name e = item_name p)) as [Heq|Hne].
    + exists p. split; [apply elem_of_cons; by left | done].
    + apply elem_of_cons in Hin as [->|Hin]; [done|].
      destruct (IH (item_name p :: seen) Hin) as (e' & He' & Hn).
      { rewrite not_elem_of_cons. done. }
      exists e'. split; [apply elem_of_cons; by right | done].
Qed.

Lemma first_named_cons (name : string) (r : search_result) (vr : list search_result) :
  first_named name (r :: vr) =
  if decide (r_name r = name) then Some r else first_named name vr.
Proof.
  unfold first_named. simpl. case_decide; [done|].
  destruct (list_find _ vr) as [[i x]|]; done.
Qed.

(** Among the first occurrences of vector results followed by anything, an
    item whose name occurs in the vector results is the first vector result
    of that name. *)
Lemma first_occurrences_vector_first (seen : list string)
    (vr : list search_result) (rest : list item) (e : item) :
  e ∈ first_occurrences seen ((VectorItem <$> vr) ++ rest) ->
  item_name e ∈ r_name <$> vr ->
  exists r, e = VectorItem r ∧ first_named (item_name e) vr = Some r.
Proof.
  revert seen. induction vr as [|r vr IH]; intros seen; [by intros _ ?%elem_of_nil|].
  rewrite !fmap_cons. simpl. intros Hin Hname.
  rewrite first_named_cons.
  case_bool_decide as Hseen.
  - pose proof (first_occurrences_unseen _ _ _ Hin) as Hn.
    case_decide as Hr; [congruence|].
    apply elem_of_cons in Hname as [?|Hname]; [congruence|]. by eapply IH.
  - apply elem_of_cons in Hin as [->|Hin].
    + exists r. simpl. by rewrite decide_True.
    + pose proof (first_occurrences_unseen _ _ _ Hin) as Hn.
      rewrite not_elem_of_cons in Hn. destruct Hn as [Hn _].
      case_decide as Hr; [congruence|].
      apply elem_of_cons in Hname as [?|Hname]; [congruence|]. by eapply IH.
Qed.

(** The loop of [hybrid_search] computes the first occurrences. *)
Lemma merge_loop (acc : dict item) (l : list item) :
  foldl (fun (combined : dict item) p =>
           if negb (dict_contains (item_name p) combined)
           then dict_set (item_name p) p combined
           else combined) acc l
  = acc ++ ((fun p => (item_name p, p)) <$> first_occurrences acc.*1 l).
Proof.
  revert acc. induction l as [|p l IH]; intros acc; simpl.
  - by rewrite app_nil_r.
  - rewrite dict_contains_spec. case_bool_decide as Hp; simpl.
    + apply IH.
    + rewrite IH, dict_set_fresh by done. rewrite <- app_assoc. simpl.
      do 3 f_equal. apply first_occurrences_seen.
      intros x. rewrite fmap_app, elem_of_app, elem_of_cons. simpl.
      rewrite list_elem_of_singleton. tauto.
Qed.

Lemma merge_results_spec (vr : list search_result) (sr : list product) (k : Z) :
  merge_results vr sr k =
  py_slice_to (first_occurrences [] ((VectorItem <$> vr) ++ (CatalogItem <$> sr))) k.
Proof.
  unfold merge_results. rewrite merge_loop. simpl. f_equal.
  unfold dict_values. rewrite <- list_fmap_compose. apply list_fmap_id.
Qed.

(** ** The vector index *)

Lemma insert_ranked_elem (h x : Qdrant.ScoredPoint) (l : list Qdrant.ScoredPoint) :
  x ∈ Qdrant.insert_ranked h l <-> x = h ∨ x ∈ l.
Proof.
  induction l as [|h' l IH]; simpl.
  - by rewrite list_elem_of_singleton, elem_of_nil; tauto.
  - destruct (PrimFloat.leb _ _).
    + by rewrite elem_of_cons.
    + rewrite !elem_of_cons, IH. tauto.
Qed.

Lemma rank_elem (x : Qdrant.ScoredPoint) (l : list Qdrant.ScoredPoint) :
  x ∈ Qdrant.rank l <-> x ∈ l.
Proof.
  unfold Qdrant.rank. induction l as [|h l IH]; simpl; [done|].
  by rewrite insert_ranked_elem, IH, elem_of_cons.
Qed.

Lemma check_brand_condition (b : string) (pl : Qdrant.payload) :
  Qdrant.check_filter (Some (Qdrant.MkFilter [Qdrant.Condition "brand" b])) pl = true ->
  Qdrant.pl_brand pl = b.
Proof.
  unfold Qdrant.check_filter, Qdrant.check_condition. simpl.
  rewrite andb_true_r. apply String.eqb_eq.
Qed.

(** Every hit of a search passes the filter and there are at most [limit]. *)
Lemma search_sound sim (c : Qdrant.client) name qv f (limit : Z) hits :
  Qdrant.search sim c name qv f limit = Ok hits ->
  length hits ≤ Z.to_nat limit ∧
  Forall (fun h => Qdrant.check_filter f (Qdrant.hit_payload h) = true) hits.
Proof.
  unfold Qdrant.search. destruct (c !! name) as [col|]; [|done].
  intros [= <-]. split; [rewrite length_take; lia|].
  apply Forall_forall. intros h Hh.
  eapply elem_of_sublist in Hh; [|apply sublist_take].
  apply (proj1 (rank_elem _ _)) in Hh.
  apply list_elem_of_fmap in Hh as (p & -> & Hp).
  by apply list_elem_of_filter in Hp as [Hp _].
Qed.

Lemma insert_ranked_length (h : Qdrant.ScoredPoint) (l : list Qdrant.ScoredPoint) :
  length (Qdrant.insert_ranked h l) = S (length l).
Proof.
  induction l as [|h' l IH]; simpl; [done|].
  destruct (PrimFloat.leb _ _); simpl; [done | by rewrite IH].
Qed.

Lemma rank_length (l : list Qdrant.ScoredPoint) : length (Qdrant.rank l) = length l.
Proof.
  unfold Qdrant.rank. induction l as [|h l IH]; simpl; [done|].
  by rewrite insert_ranked_length, IH.
Qed.

(** Without a filter, and with a limit that covers the collection, every
    point of the collection is among the hits. *)
Lemma search_complete sim (c : Qdrant.client) name qv (limit : Z) col hits :
  c !! name = Some col ->
  Qdrant.search sim c name qv None limit = Ok hits ->
  length (Qdrant.points col) ≤ Z.to_nat limit ->
  forall pt, pt ∈ Qdrant.points col ->
    Qdrant.Scored (Qdrant.id pt) (Qdrant.payload_of pt) (sim qv (Qdrant.vector pt)) ∈ hits.
Proof.
  unfold Qdrant.search. intros -> [= <-] Hlen pt Hpt.
  rewrite take_ge.
  - apply rank_elem.
    apply (list_elem_of_fmap_2
             (fun p => Qdrant.Scored (Qdrant.id p) (Qdrant.payload_of p)
                         (sim qv (Qdrant.vector p)))).
    by apply list_elem_of_filter.
  - rewrite rank_length, length_fmap.
    etrans; [apply length_filter | done].
Qed.

Lemma upsert_point_fresh (p : Qdrant.PointStruct) (l : list Qdrant.PointStruct) :
  Qdrant.id p ∉ Qdrant.id <$> l -> Qdrant.upsert_point p l = l ++ [p].
Proof.
  induction l as [|p' l IH]; simpl; [done|].
  rewrite not_elem_of_cons. intros [Hne Hnin].
  rewrite (proj2 (Z.eqb_neq _ _)) by done. by rewrite IH.
Qed.

Lemma upsert_fresh_points (acc pts : list Qdrant.PointStruct) :
  NoDup (Qdrant.id <$> (acc ++ pts)) ->
  foldl (fun l p => Qdrant.upsert_point p l) acc pts = acc ++ pts.
Proof.
  revert acc. induction pts as [|p pts IH]; intros acc Hnd; simpl.
  - by rewrite app_nil_r.
  - rewrite upsert_point_fresh.
    + rewrite IH; rewrite <- app_assoc; done.
    + rewrite fmap_app in Hnd. apply NoDup_app in Hnd as (_ & Hd & _).
      intros Hin. apply (Hd _ Hin). rewrite fmap_cons. apply elem_of_cons. by left.
Qed.

Section Indexer.
Context `{W : services}.

Lemma indexed_point_ids (n : nat) (catalog : list product) :
  Qdrant.id <$> imap (fun i p => indexed_point (n + i) p) catalog
  = Z.of_nat <$> seq n (length catalog).
Proof.
  revert n. induction catalog as [|p catalog IH]; intros n; [done|].
  cbn [imap length seq]. rewrite !fmap_cons. f_equal.
  - cbn. f_equal. lia.
  - rewrite <- (IH (S n)). f_equal. apply imap_ext. intros i x _. cbn.
    unfold indexed_point. do 2 f_equal. lia.
Qed.

Lemma make_points_run (n : nat) (catalog : list product) :
  outcome (comprehension (fun ip => make_point ip.1 ip.2)
             (imap (fun i x => ((0 + Z.of_nat (n + i))%Z, x)) catalog))
  = Ok (imap (fun i p => indexed_point (n + i) p) catalog).
Proof.
  revert n. induction catalog as [|p catalog IH]; intros n; [done|].
  cbn [imap comprehension]. rewrite !outcome_bind.
  replace (outcome (make_point _ _)) with (Ok (indexed_point (n + 0) p)).
  2:{ unfold make_point, encoder_encode, indexed_point. cbn. do 2 f_equal. }
  rewrite !outcome_bind.
  erewrite (imap_ext _ (fun i x => ((0 + Z.of_nat (S n + i))%Z, x))).
  2:{ intros i x _. cbn. do 2 f_equal. lia. }
  rewrite IH. cbn. do 2 f_equal. apply imap_ext. intros i x _. cbn. f_equal. lia.
Qed.

(** Loading the module always succeeds, and leaves one collection that
    holds the points of the catalog in catalog order. *)
Lemma load_module_run (catalog : list product) :
  outcome (load_module catalog) =
  Ok (Globals catalog
        {[ COLLECTION_NAME :=
             Qdrant.Collection get_sentence_embedding_dimension
               (imap indexed_point catalog) ]}).
Proof.
  unfold load_module. rewrite outcome_bind.
  replace (outcome (try_except _ _)) with (Ok (∅ : Qdrant.client)).
  2:{ unfold client_get_collection, Qdrant.get_collection.
      rewrite lookup_empty. done. }
  rewrite outcome_bind.
  replace (outcome (client_create_collection _ _ _))
    with (Ok (<[COLLECTION_NAME := Qdrant.Collection get_sentence_embedding_dimension []]>
                (∅ : Qdrant.client))).
  2:{ unfold client_create_collection, Qdrant.create_collection.
      rewrite lookup_empty. done. }
  rewrite outcome_bind. unfold py_enumerate.
  pose proof (make_points_run 0 catalog) as Hpts. cbn [Nat.add] in Hpts.
  rewrite Hpts. rewrite outcome_bind.
  unfold client_upsert, Qdrant.upsert. rewrite outcome_bind. cbn [emit outcome snd lift].
  rewrite lookup_insert_eq. cbn.
  rewrite insert_insert_eq, insert_empty.
  rewrite upsert_fresh_points; [done|].
  cbn. pose proof (indexed_point_ids 0 catalog) as Hids. cbn [Nat.add] in Hids.
  rewrite Hids. apply NoDup_fmap_2; [apply _ | apply NoDup_seq].
Qed.

Lemma load_module_globals (catalog : list product) (G : globals) :
  outcome (load_module catalog) = Ok G ->
  products G = catalog ∧
  client G !! COLLECTION_NAME =
    Some (Qdrant.Collection get_sentence_embedding_dimension (imap indexed_point catalog)).
Proof.
  rewrite load_module_run. intros [= <-]. split; [done|]. apply lookup_singleton_eq.
Qed.

End Indexer.

(** ** The entry points *)

Section EntryPoints.
Context `{W : services}.

Lemma outcome_try_except {A} (m : M A) (h : exn -> M A) :
  outcome (try_except m h) =
  match outcome m with
  | Ok a => Ok a
  | Raise e => outcome (h e)
  end.
Proof.
  destruct m as [t [a|e]]; unfold outcome; simpl; [done|]. by destruct (h e).
Qed.

Lemma calls_bind_prefix {A B} (m : M A) (k : A -> M B) :
  calls m `prefix_of` calls (bind m k).
Proof.
  rewrite calls_bind. destruct (outcome m); [by eexists | done].
Qed.

Lemma calls_try_except_prefix {A} (m : M A) (h : exn -> M A) :
  calls m `prefix_of` calls (try_except m h).
Proof.
  destruct m as [t [a|e]]; unfold calls; simpl; [done|].
  destruct (h e). by eexists.
Qed.

(** *** Vector search *)

Lemma search_products_run (G : globals) (query : string) (top_k : Z)
    (brand_filter : option string) (col : Qdrant.collection) :
  client G !! COLLECTION_NAME = Some col ->
  exists hits,
    Qdrant.search cosine (client G) COLLECTION_NAME (encode query)
      (qdrant_filter_of brand_filter) top_k = Ok hits ∧
    search_products G query top_k brand_filter =
      ([EncodeCall query;
        SearchCall COLLECTION_NAME (encode query) (qdrant_filter_of brand_filter) top_k],
       Ok (result_of_hit <$> hits)).
Proof.
  intros Hcol. unfold search_products, client_search, encoder_encode.
  unfold Qdrant.search. rewrite Hcol. eexists. split; [done|]. done.
Qed.

(** *** Ranking by the language model *)

Lemma index_element (products_data : list product) (i : Z) :
  (ix <- lift (py_sub1 (JInt i)) ;; lift (list_getitem products_data ix))
  = ([], py_getitem products_data (i - 1)).
Proof. done. Qed.

Lemma map_indices_in_range (products_data : list product) (idxs : list Z) :
  Forall (in_range (length products_data)) idxs ->
  exists out,
    map_indices products_data (JList (JInt <$> idxs)) = ([], Ok out) ∧
    Forall2 (fun i p => products_data !! Z.to_nat (i - 1) = Some p) idxs out.
Proof.
  unfold map_indices. cbn [py_iter]. rewrite bind_lift_Ok. intros Hall.
  induction Hall as [|i idxs [Hlo Hhi] _ (out & Hrun & Hout)].
  - exists []. by split; [|constructor].
  - destruct (lookup_lt_is_Some_2 products_data (Z.to_nat (i - 1))) as [p Hp]; [lia|].
    exists (p :: out). split; [|by constructor].
    rewrite fmap_cons. cbn [comprehension].
    rewrite index_element, (py_getitem_nonneg _ _ _ Hp) by lia.
    cbn [bind app]. destruct (comprehension _ _) as [t r].
    injection Hrun as -> ->. done.
Qed.

(** An index beyond the list, or below its negation, aborts the mapping. *)
Lemma map_indices_IndexError (products_data : list product) (idxs : list Z) :
  Exists (fun i => Z.of_nat (length products_data) < i
                   ∨ i ≤ - Z.of_nat (length products_data))%Z idxs ->
  map_indices products_data (JList (JInt <$> idxs)) = ([], Raise IndexError).
Proof.
  unfold map_indices. cbn [py_iter]. rewrite bind_lift_Ok. intros Hex.
  induction idxs as [|i idxs IH]; [by apply Exists_nil in Hex|].
  rewrite fmap_cons. cbn [comprehension]. rewrite index_element.
  destruct (py_getitem products_data (i - 1)) as [p|e] eqn:Hget.
  - apply Exists_cons in Hex as [Hi|Hex].
    + rewrite py_getitem_out_of_range in Hget by lia. done.
    + cbn [bind app]. rewrite (IH Hex). done.
  - cbn [bind]. f_equal. f_equal. unfold py_getitem in Hget.
    repeat case_match; congruence.
Qed.

Lemma semantic_search_mapped (query : string) (products_data : list product)
    (top_k : Z) (idxs : list Z) :
  outcome (fetch_indices (build_prompt query (build_context products_data) top_k))
    = Ok (JList (JInt <$> idxs)) ->
  Forall (in_range (length products_data)) idxs ->
  exists out,
    outcome (semantic_search query products_data top_k) = Ok out ∧
    Forall2 (fun i p => products_data !! Z.to_nat (i - 1) = Some p) idxs out.
Proof.
  intros Hfetch Hall.
  destruct (map_indices_in_range products_data idxs Hall) as (out & Hrun & Hout).
  exists out. split; [|done].
  unfold semantic_search. rewrite outcome_try_except, outcome_bind, Hfetch, Hrun. done.
Qed.

Lemma semantic_search_returns (query : string) (products_data : list product) (top_k : Z) :
  exists out, outcome (semantic_search query products_data top_k) = Ok out.
Proof.
  unfold semantic_search. apply try_except_returns. intros e. by exists [].
Qed.

Lemma semantic_search_posts (query : string) (products_data : list product) (top_k : Z) :
  [PostCall (build_request (build_prompt query (build_context products_data) top_k))]
    `prefix_of` calls (semantic_search query products_data top_k).
Proof.
  unfold semantic_search.
  etrans; [|apply calls_try_except_prefix].
  etrans; [|apply calls_bind_prefix].
  unfold fetch_indices.
  etrans; [|apply calls_bind_prefix].
  unfold http_post. rewrite calls_bind. cbn. by destruct (post _).
Qed.

(** *** Hybrid search *)

Lemma hybrid_search_run (G : globals) (query : string) (top_k : Z)
    (col : Qdrant.collection) :
  client G !! COLLECTION_NAME = Some col ->
  exists vr sr,
    outcome (search_products G query top_k None) = Ok vr ∧
    outcome (semantic_search query (products G) top_k) = Ok sr ∧
    length vr ≤ Z.to_nat top_k ∧
    outcome (hybrid_search G query top_k) = Ok (merge_results vr sr top_k) ∧
    calls (hybrid_search G query top_k) =
      calls (search_products G query top_k None)
        ++ calls (semantic_search query (products G) top_k).
Proof.
  intros Hcol.
  destruct (search_products_run G query top_k None col Hcol) as (hits & Hs & Hrun).
  destruct (semantic_search_returns query (products G) top_k) as (sr & Hsr).
  exists (result_of_hit <$> hits), sr.
  apply search_sound in Hs as [Hlen _].
  split_and!.
  - by rewrite Hrun.
  - done.
  - by rewrite length_fmap.
  - unfold hybrid_search. rewrite outcome_bind, Hrun. cbn [outcome snd].
    rewrite outcome_bind. unfold outcome in Hsr. unfold outcome. rewrite Hsr. done.
  - unfold hybrid_search. rewrite calls_bind, Hrun. cbn [outcome snd calls fst].
    f_equal. rewrite calls_bind, Hsr. cbn. by rewrite app_nil_r.
Qed.

End EntryPoints.

(** * The claims *)

(** ** Indexer *)

(** C7: once the module-level indexing has run on a catalog, the index
    holds the collection [products] with exactly one record per product:
    as many records as the catalog has entries, the record at position [i]
    is the one built from the product at position [i] and has id [i], and,
    the encoder producing vectors of its declared dimension, every stored
    vector has that dimension, which is also the size the collection was
    created with. *)
Theorem indexer_one_record_per_product (W : services) (catalog : list product) :
  (forall text, length (encode text) = get_sentence_embedding_dimension) ->
  exists G col,
    outcome (load_module catalog) = Ok G ∧
    client G = {[ COLLECTION_NAME := col ]} ∧
    length (Qdrant.points col) = length catalog ∧
    Qdrant.id <$> Qdrant.points col = Z.of_nat <$> seq 0 (length catalog) ∧
    (forall i, Qdrant.points col !! i = indexed_point i <$> catalog !! i) ∧
    Qdrant.size col = get_sentence_embedding_dimension ∧
    Forall (fun pt => length (Qdrant.vector pt) = get_sentence_embedding_dimension)
      (Qdrant.points col).
Proof.
  intros Hdim.
  exists (Globals catalog
            {[ COLLECTION_NAME :=
                 Qdrant.Collection get_sentence_embedding_dimension
                   (imap indexed_point catalog) ]}),
         (Qdrant.Collection get_sentence_embedding_dimension (imap indexed_point catalog)).
  split; [apply load_module_run|]. cbn [client Qdrant.points Qdrant.size].
  split_and!.
  - done.
  - apply length_imap.
  - apply (indexed_point_ids 0).
  - intros i. apply list_lookup_imap.
  - done.
  - apply Forall_forall. intros pt Hpt.
    apply list_elem_of_lookup in Hpt as [i Hi].
    rewrite list_lookup_imap in Hi.
    destruct (catalog !! i) as [p|]; [|done].
    injection Hi as <-. apply Hdim.
Qed.

Lemma indexer_one_record_per_product_witness :
  (forall text, length (Mock.embed text) = 2) ∧
  exists G col,
    outcome (@load_module (Mock.answering [2; 1]%Z) Mock.catalog) = Ok G ∧
    client G = {[ COLLECTION_NAME := col ]} ∧
    length (Qdrant.points col) = 3 ∧
    Qdrant.id <$> Qdrant.points col = [0; 1; 2]%Z ∧
    (forall i, Qdrant.points col !! i
               = @indexed_point (Mock.answering [2; 1]%Z) i <$> Mock.catalog !! i) ∧
    Qdrant.size col = 2 ∧
    Forall (fun pt => length (Qdrant.vector pt) = 2) (Qdrant.points col).
Proof.
  split; [reflexivity|].
  apply (indexer_one_record_per_product (Mock.answering [2; 1]%Z) Mock.catalog).
  reflexivity.
Defined.

(** ** Vector search *)

(** C9: an empty [brand_filter] is the same call as no [brand_filter]: no
    filter is built and the two calls are the same computation, so the
    same events and the same results. No brand is excluded: once the
    module is loaded, a [top_k] that covers the catalog returns a record
    for every product, whatever its brand. *)
Theorem search_products_empty_brand_filter (W : services) (catalog : list product)
    (G : globals) (query : string) (top_k : Z) :
  qdrant_filter_of (Some ""%string) = None ∧
  search_products G query top_k (Some ""%string) = search_products G query top_k None ∧
  (outcome (load_module catalog) = Ok G ->
   (Z.of_nat (length catalog) ≤ top_k)%Z ->
   exists rs,
     outcome (search_products G query top_k (Some ""%string)) = Ok rs ∧
     forall p, p ∈ catalog ->
       exists r, r ∈ rs ∧ r_name r = p_name p ∧ r_brand r = p_brand p).
Proof.
  split; [done|]. split; [done|].
  intros [_ Hcol]%load_module_globals Hk.
  destruct (search_products_run G query top_k (Some ""%string) _ Hcol) as (hits & Hs & Hrun).
  exists (result_of_hit <$> hits). split; [by rewrite Hrun|].
  intros p (i & Hi)%list_elem_of_lookup.
  pose proof (search_complete _ _ _ _ _ _ _ Hcol Hs) as Hall.
  cbn [Qdrant.points] in Hall. rewrite length_imap in Hall.
  specialize (Hall ltac:(lia) (indexed_point i p)).
  eexists. split.
  - apply list_elem_of_fmap_2, Hall.
    apply list_elem_of_lookup. exists i. by rewrite list_lookup_imap, Hi.
  - done.
Qed.

Lemma search_products_empty_brand_filter_witness :
  outcome (@load_module Mock.unreachable Mock.catalog) = Ok Mock.loaded ∧
  (Z.of_nat (length Mock.catalog) ≤ 3)%Z ∧
  qdrant_filter_of (Some ""%string) = None ∧
  @search_products Mock.unreachable Mock.loaded "phone" 3 (Some ""%string)
    = @search_products Mock.unreachable Mock.loaded "phone" 3 None ∧
  exists rs,
    outcome (@search_products Mock.unreachable Mock.loaded "phone" 3 (Some ""%string)) = Ok rs ∧
    forall p, p ∈ Mock.catalog ->
      exists r, r ∈ rs ∧ r_name r = p_name p ∧ r_brand r = p_brand p.
Proof.
  split; [vm_compute; reflexivity|]. split; [vm_compute; discriminate|].
  destruct (search_products_empty_brand_filter Mock.unreachable Mock.catalog
              Mock.loaded "phone" 3) as (Hnone & Hsame & Hany).
  split; [exact Hnone|]. split; [exact Hsame|].
  apply Hany; [vm_compute; reflexivity | vm_compute; discriminate].
Defined.

(** C6, as stated, fails: with the empty string as [brand_filter] the loaded
    mock catalog answers a query with a record of brand [X]. *)
Lemma brand_filter_empty_counterexample :
  outcome (@load_module Mock.unreachable Mock.catalog) = Ok Mock.loaded ∧
  ~ (forall rs,
       outcome (@search_products Mock.unreachable Mock.loaded "phone" 1 (Some ""%string)) = Ok rs ->
       Forall (fun r => r_brand r = ""%string) rs).
Proof.
  split; [vm_compute; reflexivity|].
  intros Hall. specialize (Hall _ eq_refl).
  apply Forall_cons in Hall as [Hbrand _]. vm_compute in Hbrand. discriminate.
Qed.

(** C6, amended: for a non-empty [brand_filter], [search_products] returns,
    and every record it returns has exactly that brand. *)
Theorem search_products_brand_filter (W : services) (catalog : list product)
    (G : globals) (query : string) (top_k : Z) (brand : string) :
  outcome (load_module catalog) = Ok G ->
  brand ≠ ""%string ->
  exists rs,
    outcome (search_products G query top_k (Some brand)) = Ok rs ∧
    Forall (fun r => r_brand r = brand) rs.
Proof.
  intros [_ Hcol]%load_module_globals Hne.
  destruct (search_products_run G query top_k (Some brand) _ Hcol) as (hits & Hs & Hrun).
  exists (result_of_hit <$> hits). split; [by rewrite Hrun|].
  apply search_sound in Hs as [_ Hpass].
  apply Forall_fmap. eapply Forall_impl; [exact Hpass|].
  intros h Hh. cbn in *. unfold qdrant_filter_of in Hh.
  destruct (String.eqb_spec brand ""); [done|].
  by apply check_brand_condition.
Qed.

Lemma search_products_brand_filter_witness :
  outcome (@load_module Mock.unreachable Mock.catalog) = Ok Mock.loaded ∧
  "X"%string ≠ ""%string ∧
  exists rs,
    outcome (@search_products Mock.unreachable Mock.loaded "phone" 3 (Some "X"%string)) = Ok rs ∧
    Forall (fun r => r_brand r = "X"%string) rs.
Proof.
  split; [vm_compute; reflexivity|]. split; [discriminate|].
  apply (search_products_brand_filter Mock.unreachable Mock.catalog Mock.loaded "phone" 3 "X").
  - vm_compute; reflexivity.
  - discriminate.
Defined.

(** ** Hybrid search *)

(** C3: for a positive [top_k], [hybrid_search] returns at most [top_k]
    entries, no two of them with the same name. *)
Theorem hybrid_search_bounded_distinct (W : services) (catalog : list product)
    (G : globals) (query : string) (top_k : Z) :
  outcome (load_module catalog) = Ok G ->
  (0 < top_k)%Z ->
  exists out,
    outcome (hybrid_search G query top_k) = Ok out ∧
    (Z.of_nat (length out) ≤ top_k)%Z ∧
    NoDup (item_name <$> out).
Proof.
  intros [_ Hcol]%load_module_globals Hk.
  destruct (hybrid_search_run G query top_k _ Hcol) as (vr & sr & _ & _ & _ & Hout & _).
  exists (merge_results vr sr top_k). split; [done|].
  rewrite merge_results_spec. split.
  - apply py_slice_to_length. lia.
  - eapply sublist_NoDup; [apply first_occurrences_NoDup|].
    apply fmap_sublist, py_slice_to_sublist.
Qed.

Lemma hybrid_search_bounded_distinct_witness :
  outcome (@load_module (Mock.answering [2; 3]%Z) Mock.catalog) = Ok Mock.loaded ∧
  (0 < 2)%Z ∧
  exists out,
    outcome (@hybrid_search (Mock.answering [2; 3]%Z) Mock.loaded "phone" 2) = Ok out ∧
    (Z.of_nat (length out) ≤ 2)%Z ∧
    NoDup (item_name <$> out).
Proof.
  split; [vm_compute; reflexivity|]. split; [lia|].
  apply (hybrid_search_bounded_distinct (Mock.answering [2; 3]%Z) Mock.catalog
           Mock.loaded "phone" 2).
  - vm_compute; reflexivity.
  - lia.
Defined.

(** C4: [hybrid_search] returns the first [top_k] of the first occurrences,
    by name, of the vector results followed by the semantic results. An
    emitted item whose name occurs in the vector results is the first vector
    result of that name, and every name of the vector results is emitted
    that way. With vector results [[a; b]], semantic results [[b'; c]]
    where [b'] has the name of [b], and [top_k = 3], the merge is
    [[a; b; c]] with the vector-sourced [b]. *)
Theorem hybrid_search_vector_first (W : services) (catalog : list product)
    (G : globals) (query : string) (top_k : Z) :
  outcome (load_module catalog) = Ok G ->
  (0 < top_k)%Z ->
  exists vr sr out,
    outcome (search_products G query top_k None) = Ok vr ∧
    outcome (semantic_search query catalog top_k) = Ok sr ∧
    outcome (hybrid_search G query top_k) = Ok out ∧
    out = take (Z.to_nat top_k)
            (first_occurrences [] ((VectorItem <$> vr) ++ (CatalogItem <$> sr))) ∧
    (forall e, e ∈ out -> item_name e ∈ r_name <$> vr ->
       exists r, e = VectorItem r ∧ first_named (item_name e) vr = Some r) ∧
    (forall name, name ∈ r_name <$> vr ->
       exists r, first_named name vr = Some r ∧ VectorItem r ∈ out) ∧
    (forall a b b' c,
       r_name a ≠ r_name b -> p_name b' = r_name b ->
       p_name c ≠ r_name a -> p_name c ≠ r_name b ->
       merge_results [a; b] [b'; c] 3 = [VectorItem a; VectorItem b; CatalogItem c]).
Proof.
  intros [Hprod Hcol]%load_module_globals Hk.
  destruct (hybrid_search_run G query top_k _ Hcol) as (vr & sr & Hvr & Hsr & Hlen & Hout & _).
  rewrite Hprod in Hsr.
  exists vr, sr, (merge_results vr sr top_k).
  rewrite merge_results_spec, py_slice_to_nonneg by lia.
  rewrite merge_results_spec, py_slice_to_nonneg in Hout by lia.
  split_and!; try done.
  - intros e He Hname.
    eapply first_occurrences_vector_first; [|done].
    eapply elem_of_sublist; [exact He | apply sublist_take].
  - intros name (r0 & -> & Hr0)%list_elem_of_fmap.
    destruct (first_occurrences_complete [] (VectorItem <$> vr) (VectorItem r0))
      as (e & He & Hn); [by apply list_elem_of_fmap_2 | apply not_elem_of_nil |].
    assert (e ∈ take (Z.to_nat top_k)
                  (first_occurrences [] ((VectorItem <$> vr) ++ (CatalogItem <$> sr))))
      as Hin.
    { rewrite first_occurrences_app, take_app_ge.
      - apply elem_of_app. by left.
      - etrans; [apply first_occurrences_length|]. by rewrite length_fmap. }
    destruct (first_occurrences_vector_first [] vr (CatalogItem <$> sr) e) as (r & -> & Hr).
    { eapply elem_of_sublist; [exact Hin | apply sublist_take]. }
    { rewrite Hn. simpl. by apply list_elem_of_fmap_2. }
    exists r. split; [|done]. by rewrite Hn in Hr.
  - intros a b b' c Hab Hb Hca Hcb.
    rewrite merge_results_spec, py_slice_to_nonneg by lia.
    change ((VectorItem <$> [a; b]) ++ (CatalogItem <$> [b'; c]))
      with [VectorItem a; VectorItem b; CatalogItem b'; CatalogItem c].
    rewrite first_occurrences_keep by apply not_elem_of_nil.
    rewrite first_occurrences_keep
      by (simpl; rewrite not_elem_of_cons; split; [congruence | apply not_elem_of_nil]).
    rewrite first_occurrences_drop by (simpl; rewrite Hb; apply elem_of_cons; by left).
    rewrite first_occurrences_keep
      by (simpl; rewrite !not_elem_of_cons; split_and!; [congruence.. | apply not_elem_of_nil]).
    done.
Qed.

Lemma hybrid_search_vector_first_witness :
  outcome (@load_module (Mock.answering [2; 3]%Z) Mock.catalog) = Ok Mock.loaded ∧
  (0 < 2)%Z ∧
  exists vr sr out,
    outcome (@search_products (Mock.answering [2; 3]%Z) Mock.loaded "phone" 2 None) = Ok vr ∧
    outcome (@semantic_search (Mock.answering [2; 3]%Z) "phone" Mock.catalog 2) = Ok sr ∧
    outcome (@hybrid_search (Mock.answering [2; 3]%Z) Mock.loaded "phone" 2) = Ok out ∧
    out = take (Z.to_nat 2)
            (first_occurrences [] ((VectorItem <$> vr) ++ (CatalogItem <$> sr))) ∧
    (forall e, e ∈ out -> item_name e ∈ r_name <$> vr ->
       exists r, e = VectorItem r ∧ first_named (item_name e) vr = Some r) ∧
    (forall name, name ∈ r_name <$> vr ->
       exists r, first_named name vr = Some r ∧ VectorItem r ∈ out) ∧
    (forall a b b' c,
       r_name a ≠ r_name b -> p_name b' = r_name b ->
       p_name c ≠ r_name a -> p_name c ≠ r_name b ->
       merge_results [a; b] [b'; c] 3 = [VectorItem a; VectorItem b; CatalogItem c]).
Proof.
  split; [vm_compute; reflexivity|]. split; [lia|].
  apply (hybrid_search_vector_first (Mock.answering [2; 3]%Z) Mock.catalog
           Mock.loaded "phone" 2).
  - vm_compute; reflexivity.
  - lia.
Defined.

(** ** Validation of [top_k] *)




(** ** Ranking by the language model *)

Lemma string_app_assoc (s1 s2 s3 : string) :
  ((s1 +:+ s2) +:+ s3 = s1 +:+ (s2 +:+ s3))%string.
Proof.
  induction s1 as [|c s1 IH]; [done|].
  change (String c ((s1 +:+ s2) +:+ s3) = String c (s1 +:+ (s2 +:+ s3))).
  by rewrite IH.
Qed.

(** C8: [semantic_search] builds one line per supplied product, in input
    order; the line of the product at position [i] is
    [i+1. name (brand): description | $price], the price printed as Python
    prints the number. The listing is these lines joined by newlines, and
    it is sent to the language model: the first call is the HTTP request,
    whose one user message has a content that embeds the listing. *)
Theorem semantic_search_listing (W : services) (query : string)
    (products_data : list product) (top_k : Z) :
  exists lines head tail req rest,
    length lines = length products_data ∧
    (forall i p, products_data !! i = Some p ->
       lines !! i =
       Some (pretty (Z.of_nat i + 1)%Z +:+ ". " +:+ p_name p +:+ " (" +:+ p_brand p +:+ "): "
               +:+ p_description p +:+ " | $"
               +:+ match p_price p with
                   | NInt z => pretty z
                   | NFloat f => str_float f
                   end)%string) ∧
    build_context products_data = String.concat (String "010"%char EmptyString) lines ∧
    calls (semantic_search query products_data top_k) = PostCall req :: rest ∧
    json_payload req =
      JDict [("model", JStr "anthropic/claude-3-haiku");
             ("messages",
              JList [JDict [("role", JStr "user");
                            ("content",
                             JStr (head
                                     +:+ String.concat (String "010"%char EmptyString) lines
                                     +:+ tail)%string)]]);
             ("response_format", JDict [("type", JStr "json_object")])].
Proof.
  destruct (semantic_search_posts query products_data top_k) as [rest Hcalls].
  exists ((fun ip => context_line ip.1 ip.2) <$> py_enumerate products_data 1).
  exists ("Аналізуй список товарів та знайди " +:+ pretty top_k
            +:+ " найбільш відповідних для запиту:" +:+ LF
            +:+ "    " +:+ LF
            +:+ "    Запит: " +:+ query +:+ LF
            +:+ "    " +:+ LF
            +:+ "    Доступні товари:" +:+ LF
            +:+ "    ")%string.
  exists (LF +:+ "    " +:+ LF
            +:+ "    Поверни JSON з індексами " +:+ pretty top_k
            +:+ " найбільш релевантних товарів у порядку відповідності." +:+ LF
            +:+ "    Формат: {" +:+ DQUOTE +:+ "results" +:+ DQUOTE
            +:+ ": [idx1, idx2, idx3]}")%string.
  exists (build_request (build_prompt query (build_context products_data) top_k)), rest.
  split; [unfold py_enumerate; by rewrite length_fmap, length_imap|].
  split.
  { intros i p Hp. unfold py_enumerate.
    rewrite list_lookup_fmap, list_lookup_imap, Hp. cbn.
    unfold context_line, str_number. do 3 f_equal. lia. }
  split; [done|]. split; [exact Hcalls|].
  unfold build_request, build_prompt. cbn [json_payload].
  change (build_context products_data)
    with (String.concat (String "010"%char EmptyString)
            ((fun ip => context_line ip.1 ip.2) <$> py_enumerate products_data 1)).
  by rewrite !string_app_assoc.
Qed.

(** C5: when the indices parsed from the model's answer all lie in
    [1, N], [semantic_search] returns, for each index [i] and in the order
    of the indices, the product at position [i - 1] of the list it was
    given; with three products and the indices [2, 1] the result is the
    second product followed by the first. *)
Theorem semantic_search_maps_indices (W : services) (query : string)
    (products_data : list product) (top_k : Z) (idxs : list Z) :
  outcome (fetch_indices (build_prompt query (build_context products_data) top_k))
    = Ok (JList (JInt <$> idxs)) ->
  Forall (in_range (length products_data)) idxs ->
  exists out,
    outcome (semantic_search query products_data top_k) = Ok out ∧
    Forall2 (fun i p => products_data !! Z.to_nat (i - 1) = Some p) idxs out ∧
    (forall p0 p1 p2,
       products_data = [p0; p1; p2] -> idxs = [2; 1]%Z -> out = [p1; p0]).
Proof.
  intros Hfetch Hall.
  destruct (semantic_search_mapped query products_data top_k idxs Hfetch Hall)
    as (out & Hout & Hmap).
  exists out. split_and!; [done..|].
  intros p0 p1 p2 -> ->.
  apply Forall2_cons_inv_l in Hmap as (q1 & out1 & Hq1 & Hmap & ->).
  apply Forall2_cons_inv_l in Hmap as (q0 & out0 & Hq0 & Hmap & ->).
  apply Forall2_nil_inv_l in Hmap as ->.
  change (Some p1 = Some q1) in Hq1. change (Some p0 = Some q0) in Hq0. congruence.
Qed.

Lemma semantic_search_maps_indices_witness :
  outcome (@fetch_indices (Mock.answering [2; 1]%Z)
             (build_prompt "phone"
                (@build_context (Mock.answering [2; 1]%Z) Mock.catalog) 2))
    = Ok (JList (JInt <$> [2; 1]%Z)) ∧
  Forall (in_range (length Mock.catalog)) [2; 1]%Z ∧
  exists out,
    outcome (@semantic_search (Mock.answering [2; 1]%Z) "phone" Mock.catalog 2) = Ok out ∧
    Forall2 (fun i p => Mock.catalog !! Z.to_nat (i - 1) = Some p) [2; 1]%Z out ∧
    (forall p0 p1 p2,
       Mock.catalog = [p0; p1; p2] -> [2; 1]%Z = [2; 1]%Z -> out = [p1; p0]).
Proof.
  split; [vm_compute; reflexivity|].
  split; [repeat constructor; vm_compute; discriminate|].
  apply (semantic_search_maps_indices (Mock.answering [2; 1]%Z) "phone" Mock.catalog 2
           [2; 1]%Z).
  - vm_compute; reflexivity.
  - repeat constructor; vm_compute; discriminate.
Defined.

(** C10: [semantic_search] neither deduplicates nor cuts the indices: when
    they all lie in [1, N] the result has one product per index, an index
    that occurs at two positions yields the same product at both, and more
    than [top_k] indices yield more than [top_k] products. *)
Theorem semantic_search_one_product_per_index (W : services) (query : string)
    (products_data : list product) (top_k : Z) (idxs : list Z) :
  outcome (fetch_indices (build_prompt query (build_context products_data) top_k))
    = Ok (JList (JInt <$> idxs)) ->
  Forall (in_range (length products_data)) idxs ->
  exists out,
    outcome (semantic_search query products_data top_k) = Ok out ∧
    length out = length idxs ∧
    (forall j1 j2 i, idxs !! j1 = Some i -> idxs !! j2 = Some i ->
       exists p, out !! j1 = Some p ∧ out !! j2 = Some p) ∧
    ((top_k < Z.of_nat (length idxs))%Z -> (top_k < Z.of_nat (length out))%Z).
Proof.
  intros Hfetch Hall.
  destruct (semantic_search_mapped query products_data top_k idxs Hfetch Hall)
    as (out & Hout & Hmap).
  exists out. split; [done|].
  pose proof (Forall2_length _ _ _ Hmap) as Hlen.
  split_and!; [done| |lia].
  intros j1 j2 i Hj1 Hj2.
  destruct (Forall2_lookup_l _ _ _ _ _ Hmap Hj1) as (p1 & Hp1 & Hi1).
  destruct (Forall2_lookup_l _ _ _ _ _ Hmap Hj2) as (p2 & Hp2 & Hi2).
  exists p1. split; [done|]. congruence.
Qed.

Lemma semantic_search_one_product_per_index_witness :
  outcome (@fetch_indices (Mock.answering [1; 1; 2]%Z)
             (build_prompt "phone"
                (@build_context (Mock.answering [1; 1; 2]%Z) Mock.catalog) 2))
    = Ok (JList (JInt <$> [1; 1; 2]%Z)) ∧
  Forall (in_range (length Mock.catalog)) [1; 1; 2]%Z ∧
  exists out,
    outcome (@semantic_search (Mock.answering [1; 1; 2]%Z) "phone" Mock.catalog 2) = Ok out ∧
    length out = 3 ∧
    (forall j1 j2 i, [1; 1; 2]%Z !! j1 = Some i -> [1; 1; 2]%Z !! j2 = Some i ->
       exists p, out !! j1 = Some p ∧ out !! j2 = Some p) ∧
    ((2 < 3)%Z -> (2 < Z.of_nat (length out))%Z).
Proof.
  split; [vm_compute; reflexivity|].
  split; [repeat constructor; vm_compute; discriminate|].
  apply (semantic_search_one_product_per_index (Mock.answering [1; 1; 2]%Z) "phone"
           Mock.catalog 2 [1; 1; 2]%Z).
  - vm_compute; reflexivity.
  - repeat constructor; vm_compute; discriminate.
Defined.

(** What the code does for indices outside [1, N]: an index above [N], or
    at most [-N], aborts the mapping and the result is empty. *)
Lemma semantic_search_index_error (W : services) (query : string)
    (products_data : list product) (top_k : Z) (idxs : list Z) :
  outcome (fetch_indices (build_prompt query (build_context products_data) top_k))
    = Ok (JList (JInt <$> idxs)) ->
  Exists (fun i => Z.of_nat (length products_data) < i
                   ∨ i ≤ - Z.of_nat (length products_data))%Z idxs ->
  outcome (semantic_search query products_data top_k) = Ok [].
Proof.
  intros Hfetch Hex. unfold semantic_search.
  rewrite outcome_try_except, outcome_bind, Hfetch.
  by rewrite (map_indices_IndexError _ _ Hex).
Qed.

(** An index in [1 - N, 0], although outside [1, N], is mapped to a
    product counted from the end of the list. *)
Lemma semantic_search_index_wraps (W : services) (query : string)
    (products_data : list product) (top_k : Z) (i : Z) (p : product) :
  outcome (fetch_indices (build_prompt query (build_context products_data) top_k))
    = Ok (JList [JInt i]) ->
  (1 - Z.of_nat (length products_data) ≤ i ≤ 0)%Z ->
  products_data !! Z.to_nat (Z.of_nat (length products_data) + (i - 1)) = Some p ->
  outcome (semantic_search query products_data top_k) = Ok [p].
Proof.
  intros Hfetch Hi Hp. unfold semantic_search.
  rewrite outcome_try_except, outcome_bind, Hfetch.
  unfold map_indices. cbn [py_iter]. rewrite bind_lift_Ok.
  cbn [comprehension]. rewrite index_element.
  rewrite (py_getitem_negative _ _ _ Hp) by lia. done.
Qed.

(** C1, at the failing input: three products and the answer
    [{"results": [0]}]. The index 0 lies outside [1, 3], yet
    [semantic_search] returns the last product instead of the empty list.
    The answer [{"results": [5]}] of the specification's scenario does give
    the empty list. *)
Theorem semantic_search_index_zero :
  ~ in_range (length Mock.catalog) 0 ∧
  outcome (@semantic_search (Mock.answering [0]%Z) "phone" Mock.catalog 3)
    = Ok [Mock.laptop_c] ∧
  outcome (@semantic_search (Mock.answering [5]%Z) "phone" Mock.catalog 3) = Ok [].
Proof.
  split; [unfold in_range; lia|]. split; vm_compute; reflexivity.
Qed.

(** ** Runs of the mocked deployment *)

(** The listing built for the mock catalog. *)
Example build_context_catalog :
  @build_context Mock.unreachable Mock.catalog =
  ("1. Phone A (X): A small phone | $100" +:+ LF
     +:+ "2. Phone B (Y): A big phone | $200" +:+ LF
     +:+ "3. Laptop C (X): A light laptop | $999.5")%string.
Proof. vm_compute. reflexivity. Qed.

(** A brand filter keeps the one product of that brand. *)
Example search_products_brand_Y :
  outcome (@search_products Mock.unreachable Mock.loaded "phone" 1 (Some "Y"%string))
  = Ok [SearchResult "Phone B" (NInt 200) "Y" "phones" 96%float].
Proof. vm_compute. reflexivity. Qed.

(** A request that gets no response is reported and gives no products. *)
Example semantic_search_unreachable :
  exists req,
    @semantic_search Mock.unreachable "phone" Mock.catalog 2
    = ([PostCall req; PrintError RequestError], Ok []).
Proof. eexists. vm_compute. reflexivity. Qed.

(** With the semantic ranking unavailable, the hybrid search gives the
    vector results alone. *)
Example hybrid_search_unreachable :
  outcome (@hybrid_search Mock.unreachable Mock.loaded "phone" 2)
  = Ok (VectorItem <$>
          [SearchResult "Laptop C" (NFloat 999.5) "X" "laptops" 116%float;
           SearchResult "Phone A" (NInt 100) "X" "phones" 106%float]).
Proof. vm_compute. reflexivity. Qed.

(** * Further properties *)

(** ** Failures of the ranking request *)

Section Ranking.
Context `{W : services}.

Lemma calls_lift {A} (r : result A) : calls (lift r) = [].
Proof. done. Qed.

Lemma calls_bind_silent {A B} (m : M A) (k : A -> M B) :
  (forall a, calls (k a) = []) -> calls (bind m k) = calls m.
Proof.
  intros Hk. rewrite calls_bind. destruct (outcome m); [|done].
  by rewrite Hk, app_nil_r.
Qed.

Lemma calls_raise_for_status (r : http_reply) : calls (raise_for_status r) = [].
Proof. destruct r as [|status body]; [done|]. simpl. by case_match. Qed.

Lemma calls_response_json (r : http_reply) : calls (response_json r) = [].
Proof. destruct r as [|status body]; [done|]. simpl. by repeat case_match. Qed.

Lemma calls_py_json_loads (v : json) : calls (py_json_loads v) = [].
Proof. destruct v; try done. simpl. by case_match. Qed.

Lemma calls_http_post (req : request) : calls (http_post req) = [PostCall req].
Proof. unfold http_post. rewrite calls_bind. cbn. by destruct (post req). Qed.

Lemma calls_fetch_indices (prompt : string) :
  calls (fetch_indices prompt) = [PostCall (build_request prompt)].
Proof.
  unfold fetch_indices. rewrite calls_bind_silent; [apply calls_http_post|].
  intros response. rewrite calls_bind_silent; [apply calls_raise_for_status|].
  intros _. rewrite calls_bind_silent; [apply calls_response_json|].
  intros result. rewrite calls_bind_silent; [apply calls_lift|].
  intros choices. rewrite calls_bind_silent; [apply calls_lift|].
  intros choice. rewrite calls_bind_silent; [apply calls_lift|].
  intros message. rewrite calls_bind_silent; [apply calls_lift|].
  intros content. rewrite calls_bind_silent; [apply calls_py_json_loads|].
  intros parsed. apply calls_lift.
Qed.

Lemma calls_comprehension {A B} (f : A -> M B) (l : list A) :
  (forall x, calls (f x) = []) -> calls (comprehension f l) = [].
Proof.
  intros Hf. induction l as [|x l IH]; [done|].
  cbn [comprehension]. rewrite calls_bind_silent; [apply Hf|].
  intros y. rewrite calls_bind_silent; [apply IH | done].
Qed.

Lemma calls_map_indices (products_data : list product) (indices : json) :
  calls (map_indices products_data indices) = [].
Proof.
  unfold map_indices. rewrite calls_bind_silent; [apply calls_lift|].
  intros elements. apply calls_comprehension.
  intros v. rewrite calls_bind_silent; [apply calls_lift | intros; apply calls_lift].
Qed.

(** The run of [semantic_search], from how the body of its [try] ends. *)
Lemma semantic_search_run (query : string) (products_data : list product) (top_k : Z) :
  semantic_search query products_data top_k =
  match outcome (indices <- fetch_indices
                              (build_prompt query (build_context products_data) top_k) ;;
                 map_indices products_data indices) with
  | Ok out =>
      ([PostCall (build_request (build_prompt query (build_context products_data) top_k))],
       Ok out)
  | Raise e =>
      ([PostCall (build_request (build_prompt query (build_context products_data) top_k));
        PrintError e],
       Ok [])
  end.
Proof.
  unfold semantic_search.
  pose proof (calls_bind_silent
                (fetch_indices (build_prompt query (build_context products_data) top_k))
                (map_indices products_data) (calls_map_indices products_data)) as Hcalls.
  rewrite calls_fetch_indices in Hcalls.
  destruct (bind _ _) as [t [out|e]]; unfold calls, outcome in *; simpl in *; by subst.
Qed.

Lemma semantic_search_raised (query : string) (products_data : list product)
    (top_k : Z) (e : exn) :
  outcome (fetch_indices (build_prompt query (build_context products_data) top_k))
    = Raise e ->
  semantic_search query products_data top_k =
  ([PostCall (build_request (build_prompt query (build_context products_data) top_k));
    PrintError e],
   Ok []).
Proof.
  intros Hfetch. by rewrite semantic_search_run, outcome_bind, Hfetch.
Qed.

(** An element of the index list that stands for an integer is looked up
    at that integer minus one. *)
Lemma index_value_element (products_data : list product) (v : json) (i : Z) :
  index_value v = Some i ->
  (ix <- lift (py_sub1 v) ;; lift (list_getitem products_data ix))
  = ([], py_getitem products_data (i - 1)).
Proof. destruct v as [|b|z|f|s|l|d]; intros [= <-]; done. Qed.

Lemma other_element_raises (products_data : list product) (v : json) :
  index_value v = None ->
  (ix <- lift (py_sub1 v) ;; lift (list_getitem products_data ix))
  = ([], Raise TypeError).
Proof. destruct v as [|b|z|f|s|l|d]; intros [=]; done. Qed.

Lemma py_getitem_python_position (products_data : list product) (i : Z) :
  (1 - Z.of_nat (length products_data) ≤ i ≤ Z.of_nat (length products_data))%Z ->
  exists p,
    py_getitem products_data (i - 1) = Ok p ∧
    products_data !! python_position (length products_data) i = Some p.
Proof.
  intros Hi. unfold python_position.
  destruct (Z.leb_spec i 0) as [Hneg|Hpos].
  - destruct (lookup_lt_is_Some_2 products_data
                (Z.to_nat (Z.of_nat (length products_data) + (i - 1)))) as [p Hp]; [lia|].
    exists p. split; [|done]. apply py_getitem_negative; [done | lia].
  - destruct (lookup_lt_is_Some_2 products_data (Z.to_nat (i - 1))) as [p Hp]; [lia|].
    exists p. split; [|done]. apply py_getitem_nonneg; [done | lia].
Qed.

Lemma comprehension_raises {A B} (f : A -> M B) (l : list A) :
  (forall x, calls (f x) = []) ->
  Exists (fun x => exists e, outcome (f x) = Raise e) l ->
  exists e, outcome (comprehension f l) = Raise e.
Proof.
  intros Hf. induction l as [|x l IH]; [by intros ?%Exists_nil|].
  intros Hex. cbn [comprehension]. rewrite outcome_bind.
  destruct (outcome (f x)) as [y|e] eqn:Hx; [|by eexists].
  apply Exists_cons in Hex as [[e He]|Hex]; [congruence|].
  destruct (IH Hex) as [e He]. exists e. by rewrite outcome_bind, He.
Qed.

End Ranking.

(** [semantic_search] sends exactly one request and calls nothing else,
    and it never raises. When the body of its [try] (the request, the two
    decodings and the mapping of the indices) ends in a value, that value
    is returned and nothing is printed; when it ends in an exception, that
    exception is printed as the one diagnostic and the empty list is
    returned. *)
Theorem semantic_search_one_request (W : services) (query : string)
    (products_data : list product) (top_k : Z) :
  (forall out,
     outcome (indices <- fetch_indices
                           (build_prompt query (build_context products_data) top_k) ;;
              map_indices products_data indices) = Ok out ->
     semantic_search query products_data top_k =
     ([PostCall (build_request (build_prompt query (build_context products_data) top_k))],
      Ok out)) ∧
  (forall e,
     outcome (indices <- fetch_indices
                           (build_prompt query (build_context products_data) top_k) ;;
              map_indices products_data indices) = Raise e ->
     semantic_search query products_data top_k =
     ([PostCall (build_request (build_prompt query (build_context products_data) top_k));
       PrintError e],
      Ok [])).
Proof.
  split; intros r Hr; by rewrite semantic_search_run, Hr.
Qed.

Lemma semantic_search_one_request_witness :
  (outcome (indices <- @fetch_indices (Mock.answering [2; 1]%Z)
                         (build_prompt "phone"
                            (@build_context (Mock.answering [2; 1]%Z) Mock.catalog) 3) ;;
            map_indices Mock.catalog indices)
     = Ok [Mock.phone_b; Mock.phone_a] ∧
   @semantic_search (Mock.answering [2; 1]%Z) "phone" Mock.catalog 3 =
   ([PostCall (@build_request (Mock.answering [2; 1]%Z)
                 (build_prompt "phone"
                    (@build_context (Mock.answering [2; 1]%Z) Mock.catalog) 3))],
    Ok [Mock.phone_b; Mock.phone_a])) ∧
  (outcome (indices <- @fetch_indices (Mock.answering [2; 7]%Z)
                         (build_prompt "phone"
                            (@build_context (Mock.answering [2; 7]%Z) Mock.catalog) 3) ;;
            map_indices Mock.catalog indices)
     = Raise IndexError ∧
   @semantic_search (Mock.answering [2; 7]%Z) "phone" Mock.catalog 3 =
   ([PostCall (@build_request (Mock.answering [2; 7]%Z)
                 (build_prompt "phone"
                    (@build_context (Mock.answering [2; 7]%Z) Mock.catalog) 3));
     PrintError IndexError],
    Ok [])).
Proof.
  split.
  - split; [vm_compute; reflexivity|].
    apply (semantic_search_one_request (Mock.answering [2; 1]%Z) "phone" Mock.catalog 3).
    vm_compute; reflexivity.
  - split; [vm_compute; reflexivity|].
    apply (semantic_search_one_request (Mock.answering [2; 7]%Z) "phone" Mock.catalog 3).
    vm_compute; reflexivity.
Defined.

(** A request that gets no response (connection error, timeout) is
    reported as such and gives the empty list. *)
Theorem semantic_search_no_response (W : services) (query : string)
    (products_data : list product) (top_k : Z) :
  post (build_request (build_prompt query (build_context products_data) top_k))
    = NoResponse ->
  semantic_search query products_data top_k =
  ([PostCall (build_request (build_prompt query (build_context products_data) top_k));
    PrintError RequestError],
   Ok []).
Proof.
  intros Hpost. apply semantic_search_raised.
  unfold fetch_indices, http_post. rewrite Hpost. done.
Qed.

Lemma semantic_search_no_response_witness :
  @post Mock.unreachable
    (@build_request Mock.unreachable
       (build_prompt "phone" (@build_context Mock.unreachable Mock.catalog) 3))
    = NoResponse ∧
  @semantic_search Mock.unreachable "phone" Mock.catalog 3 =
  ([PostCall (@build_request Mock.unreachable
                (build_prompt "phone" (@build_context Mock.unreachable Mock.catalog) 3));
    PrintError RequestError],
   Ok []).
Proof.
  split; [reflexivity|].
  apply (semantic_search_no_response Mock.unreachable "phone" Mock.catalog 3).
  reflexivity.
Defined.

(** A response whose status is not 2xx is reported as a status error and
    gives the empty list, whatever its body holds. *)
Theorem semantic_search_bad_status (W : services) (query : string)
    (products_data : list product) (top_k : Z) (status : Z) (body : string) :
  post (build_request (build_prompt query (build_context products_data) top_k))
    = Response status body ->
  (status < 200 ∨ 299 < status)%Z ->
  semantic_search query products_data top_k =
  ([PostCall (build_request (build_prompt query (build_context products_data) top_k));
    PrintError HTTPStatusError],
   Ok []).
Proof.
  intros Hpost Hstatus. apply semantic_search_raised.
  unfold fetch_indices, http_post. rewrite Hpost.
  rewrite !outcome_bind. cbn.
  destruct ((200 <=? status)%Z && (status <=? 299)%Z) eqn:Hok; [|done].
  apply andb_true_iff in Hok as [?%Z.leb_le ?%Z.leb_le]. lia.
Qed.

Lemma semantic_search_bad_status_witness :
  @post (Faults.replying (Response 500 (Mock.body [1]%Z)))
    (@build_request (Faults.replying (Response 500 (Mock.body [1]%Z)))
       (build_prompt "phone"
          (@build_context (Faults.replying (Response 500 (Mock.body [1]%Z))) Mock.catalog) 3))
    = Response 500 (Mock.body [1]%Z) ∧
  (500 < 200 ∨ 299 < 500)%Z ∧
  @semantic_search (Faults.replying (Response 500 (Mock.body [1]%Z))) "phone" Mock.catalog 3 =
  ([PostCall (@build_request (Faults.replying (Response 500 (Mock.body [1]%Z)))
                (build_prompt "phone"
                   (@build_context (Faults.replying (Response 500 (Mock.body [1]%Z)))
                      Mock.catalog) 3));
    PrintError HTTPStatusError],
   Ok []).
Proof.
  split; [reflexivity|]. split; [lia|].
  apply (semantic_search_bad_status (Faults.replying (Response 500 (Mock.body [1]%Z)))
           "phone" Mock.catalog 3 500 (Mock.body [1]%Z)).
  - reflexivity.
  - lia.
Defined.



(** ** The index list *)

Section IndexList.
Context `{W : services}.

Lemma map_indices_python (products_data : list product) (l : list json) :
  Forall (fun v => exists i, index_value v = Some i ∧
            (1 - Z.of_nat (length products_data) ≤ i ≤ Z.of_nat (length products_data))%Z) l ->
  exists out,
    outcome (map_indices products_data (JList l)) = Ok out ∧
    Forall2 (fun v p => exists i, index_value v = Some i ∧
               products_data !! python_position (length products_data) i = Some p) l out.
Proof.
  unfold map_indices. cbn [py_iter]. rewrite bind_lift_Ok. intros Hall.
  induction Hall as [|v l (i & Hv & Hi) _ (out & Hrun & Hout)].
  - exists []. by split; [|constructor].
  - destruct (py_getitem_python_position products_data i Hi) as (p & Hget & Hp).
    exists (p :: out). split; [|constructor; [by exists i | done]].
    cbn [comprehension]. rewrite outcome_bind, (index_value_element _ _ _ Hv), Hget.
    cbn [outcome snd]. by rewrite outcome_bind, Hrun.
Qed.

Lemma map_indices_bad_element (products_data : list product) (l : list json) :
  Exists (fun v => forall i, index_value v = Some i ->
            (Z.of_nat (length products_data) < i ∨ i ≤ - Z.of_nat (length products_data))%Z) l ->
  exists e, outcome (map_indices products_data (JList l)) = Raise e.
Proof.
  unfold map_indices. cbn [py_iter]. rewrite bind_lift_Ok. intros Hex.
  apply comprehension_raises.
  - intros v. rewrite calls_bind_silent; [apply calls_lift | intros; apply calls_lift].
  - eapply Exists_impl; [exact Hex|]. intros v Hv. cbn beta.
    destruct (index_value v) as [i|] eqn:Hiv.
    + rewrite (index_value_element _ _ _ Hiv).
      rewrite py_getitem_out_of_range by (specialize (Hv i Hiv); lia). by eexists.
    + rewrite (other_element_raises _ _ Hiv). by eexists.
Qed.

End IndexList.

(** When every element of the index list is an integer (or a boolean,
    which Python counts as 1 or 0) between [1 - N] and [N], the request is
    followed by no diagnostic and the result has one product per element,
    in order: the product at position [i - 1] for a positive [i], and the
    one counted from the end of the list for [i ≤ 0]. *)
Theorem semantic_search_python_indexing (W : services) (query : string)
    (products_data : list product) (top_k : Z) (l : list json) :
  outcome (fetch_indices (build_prompt query (build_context products_data) top_k))
    = Ok (JList l) ->
  Forall (fun v => exists i, index_value v = Some i ∧
            (1 - Z.of_nat (length products_data) ≤ i ≤ Z.of_nat (length products_data))%Z) l ->
  exists out,
    semantic_search query products_data top_k =
      ([PostCall (build_request (build_prompt query (build_context products_data) top_k))],
       Ok out) ∧
    Forall2 (fun v p => exists i, index_value v = Some i ∧
               products_data !! python_position (length products_data) i = Some p) l out.
Proof.
  intros Hfetch Hall.
  destruct (map_indices_python products_data l Hall) as (out & Hrun & Hout).
  exists out. split; [|done].
  by rewrite semantic_search_run, outcome_bind, Hfetch, Hrun.
Qed.

Lemma semantic_search_python_indexing_witness :
  outcome (@fetch_indices (Faults.answering (JList [JInt 0; JBool true; JInt (-2); JInt 3]))
             (build_prompt "phone"
                (@build_context (Faults.answering (JList [JInt 0; JBool true; JInt (-2); JInt 3]))
                   Mock.catalog) 3))
    = Ok (JList [JInt 0; JBool true; JInt (-2); JInt 3]) ∧
  Forall (fun v => exists i, index_value v = Some i ∧
            (1 - Z.of_nat (length Mock.catalog) ≤ i ≤ Z.of_nat (length Mock.catalog))%Z)
    [JInt 0; JBool true; JInt (-2); JInt 3] ∧
  exists out,
    @semantic_search (Faults.answering (JList [JInt 0; JBool true; JInt (-2); JInt 3]))
      "phone" Mock.catalog 3 =
      ([PostCall (@build_request (Faults.answering (JList [JInt 0; JBool true; JInt (-2); JInt 3]))
                    (build_prompt "phone"
                       (@build_context
                          (Faults.answering (JList [JInt 0; JBool true; JInt (-2); JInt 3]))
                          Mock.catalog) 3))],
       Ok out) ∧
    Forall2 (fun v p => exists i, index_value v = Some i ∧
               Mock.catalog !! python_position (length Mock.catalog) i = Some p)
      [JInt 0; JBool true; JInt (-2); JInt 3] out.
Proof.
  assert (Forall (fun v => exists i, index_value v = Some i ∧
            (1 - Z.of_nat (length Mock.catalog) ≤ i ≤ Z.of_nat (length Mock.catalog))%Z)
            [JInt 0; JBool true; JInt (-2); JInt 3]) as Hall.
  { repeat constructor; eexists; (split; [reflexivity | cbn; lia]). }
  split; [vm_compute; reflexivity|]. split; [exact Hall|].
  apply (semantic_search_python_indexing
           (Faults.answering (JList [JInt 0; JBool true; JInt (-2); JInt 3]))
           "phone" Mock.catalog 3 [JInt 0; JBool true; JInt (-2); JInt 3]).
  - vm_compute; reflexivity.
  - exact Hall.
Defined.

(** One bad element spoils the whole answer: if any element of the index
    list is not an integer or a boolean, or stands for an integer above [N]
    or at most [-N], the result is the empty list, with a diagnostic, even
    when the other elements are valid indices. *)
Theorem semantic_search_all_or_nothing (W : services) (query : string)
    (products_data : list product) (top_k : Z) (l : list json) :
  outcome (fetch_indices (build_prompt query (build_context products_data) top_k))
    = Ok (JList l) ->
  Exists (fun v => forall i, index_value v = Some i ->
            (Z.of_nat (length products_data) < i ∨ i ≤ - Z.of_nat (length products_data))%Z) l ->
  exists e,
    semantic_search query products_data top_k =
      ([PostCall (build_request (build_prompt query (build_context products_data) top_k));
        PrintError e],
       Ok []).
Proof.
  intros Hfetch Hex.
  destruct (map_indices_bad_element products_data l Hex) as (e & Hrun).
  exists e. by rewrite semantic_search_run, outcome_bind, Hfetch, Hrun.
Qed.

Lemma semantic_search_all_or_nothing_witness :
  outcome (@fetch_indices (Faults.answering (JList [JInt 1; JStr "2"; JInt 3]))
             (build_prompt "phone"
                (@build_context (Faults.answering (JList [JInt 1; JStr "2"; JInt 3]))
                   Mock.catalog) 3))
    = Ok (JList [JInt 1; JStr "2"; JInt 3]) ∧
  Exists (fun v => forall i, index_value v = Some i ->
            (Z.of_nat (length Mock.catalog) < i ∨ i ≤ - Z.of_nat (length Mock.catalog))%Z)
    [JInt 1; JStr "2"; JInt 3] ∧
  exists e,
    @semantic_search (Faults.answering (JList [JInt 1; JStr "2"; JInt 3]))
      "phone" Mock.catalog 3 =
      ([PostCall (@build_request (Faults.answering (JList [JInt 1; JStr "2"; JInt 3]))
                    (build_prompt "phone"
                       (@build_context (Faults.answering (JList [JInt 1; JStr "2"; JInt 3]))
                          Mock.catalog) 3));
        PrintError e],
       Ok []).
Proof.
  assert (Exists (fun v => forall i, index_value v = Some i ->
            (Z.of_nat (length Mock.catalog) < i ∨ i ≤ - Z.of_nat (length Mock.catalog))%Z)
            [JInt 1; JStr "2"; JInt 3]) as Hex.
  { apply Exists_cons_tl, Exists_cons_hd. intros i Hi. discriminate Hi. }
  split; [vm_compute; reflexivity|]. split; [exact Hex|].
  apply (semantic_search_all_or_nothing (Faults.answering (JList [JInt 1; JStr "2"; JInt 3]))
           "phone" Mock.catalog 3 [JInt 1; JStr "2"; JInt 3]).
  - vm_compute; reflexivity.
  - exact Hex.
Defined.

(** ** The request *)

(** When the API key is not set in the environment, the request is sent
    all the same, with the header [Authorization: Bearer None]. *)
Theorem semantic_search_missing_api_key (W : services) (query : string)
    (products_data : list product) (top_k : Z) :
  OPENROUTER_API_KEY = None ->
  exists req rest,
    calls (semantic_search query products_data top_k) = PostCall req :: rest ∧
    url req = OPENROUTER_API_URL ∧
    headers req = [("Authorization", "Bearer None"); ("Content-Type", "application/json")].
Proof.
  intros Hkey. rewrite semantic_search_run.
  destruct (outcome _); eexists _, _; (split; [reflexivity|]);
    unfold build_request; cbn; by rewrite Hkey.
Qed.

Lemma semantic_search_missing_api_key_witness :
  @OPENROUTER_API_KEY Mock.unreachable = None ∧
  exists req rest,
    calls (@semantic_search Mock.unreachable "phone" Mock.catalog 3) = PostCall req :: rest ∧
    url req = OPENROUTER_API_URL ∧
    headers req = [("Authorization", "Bearer None"); ("Content-Type", "application/json")].
Proof.
  split; [reflexivity|].
  apply (semantic_search_missing_api_key Mock.unreachable "phone" Mock.catalog 3).
  reflexivity.
Defined.

(** ** The listing *)

Lemma py_join_snoc (sep : string) (l : list string) (x : string) :
  l ≠ [] -> py_join sep (l ++ [x]) = (py_join sep l +:+ sep +:+ x)%string.
Proof.
  unfold py_join. induction l as [|y l IH]; [done|]. intros _.
  destruct l as [|z l]; [done|].
  change ((y :: z :: l) ++ [x]) with (y :: ((z :: l) ++ [x])).
  change (String.concat sep (y :: (z :: l) ++ [x]))
    with (y +:+ sep +:+ String.concat sep ((z :: l) ++ [x]))%string.
  rewrite IH by done.
  change (String.concat sep (y :: z :: l))
    with (y +:+ sep +:+ String.concat sep (z :: l))%string.
  by rewrite !string_app_assoc.
Qed.

(** A product added at the end of a non-empty list adds one line at the end
    of the listing, numbered [N + 1], and leaves the lines before it as
    they were. *)
Theorem build_context_snoc (W : services) (products_data : list product) (p : product) :
  products_data ≠ [] ->
  build_context (products_data ++ [p]) =
  (build_context products_data +:+ LF
     +:+ context_line (Z.of_nat (length products_data) + 1) p)%string.
Proof.
  intros Hne. unfold build_context, py_enumerate.
  rewrite imap_app, fmap_app. cbn [imap fmap list_fmap].
  rewrite py_join_snoc.
  - cbn. do 3 f_equal. lia.
  - destruct products_data; [done|]. discriminate.
Qed.

Lemma build_context_snoc_witness :
  [Mock.phone_a; Mock.phone_b] ≠ [] ∧
  @build_context Mock.unreachable ([Mock.phone_a; Mock.phone_b] ++ [Mock.laptop_c]) =
  (@build_context Mock.unreachable [Mock.phone_a; Mock.phone_b] +:+ LF
     +:+ @context_line Mock.unreachable
           (Z.of_nat (length [Mock.phone_a; Mock.phone_b]) + 1) Mock.laptop_c)%string.
Proof.
  split; [discriminate|].
  apply (build_context_snoc Mock.unreachable [Mock.phone_a; Mock.phone_b] Mock.laptop_c).
  discriminate.
Defined.

(** ** The indexer's calls *)

Lemma bind_Ok {A B} (m : M A) (k : A -> M B) (t : list event) (a : A) :
  m = (t, Ok a) -> bind m k = (t ++ calls (k a), outcome (k a)).
Proof. intros ->. unfold bind, calls, outcome. by destruct (k a). Qed.

Section IndexerCalls.
Context `{W : services}.

Lemma make_point_run (idx : Z) (p : product) :
  make_point idx p =
  ([EncodeCall (p_name p +:+ " " +:+ p_description p)%string],
   Ok (Qdrant.Point idx (encode (p_name p +:+ " " +:+ p_description p)%string)
         (Qdrant.Payload (p_name p) (p_price p) (p_brand p) (p_category p)))).
Proof. done. Qed.

Lemma make_points_calls (n : nat) (catalog : list product) :
  calls (comprehension (fun ip => make_point ip.1 ip.2)
           (imap (fun i x => ((0 + Z.of_nat (n + i))%Z, x)) catalog))
  = (fun p => EncodeCall (p_name p +:+ " " +:+ p_description p)%string) <$> catalog.
Proof.
  revert n. induction catalog as [|p catalog IH]; intros n; [done|].
  cbn [imap comprehension].
  rewrite calls_bind, make_point_run. cbn [outcome calls fst snd app].
  rewrite fmap_cons. f_equal.
  rewrite calls_bind_silent by done.
  erewrite (imap_ext _ (fun i x => ((0 + Z.of_nat (S n + i))%Z, x)));
    [|intros i x _; cbn; do 2 f_equal; lia].
  apply IH.
Qed.

(** The whole run of the module-level code. *)
Lemma load_module_full_run (catalog : list product) :
  load_module catalog =
  ([GetCollectionCall COLLECTION_NAME;
    CreateCollectionCall COLLECTION_NAME get_sentence_embedding_dimension]
     ++ ((fun p => EncodeCall (p_name p +:+ " " +:+ p_description p)%string) <$> catalog)
     ++ [UpsertCall COLLECTION_NAME (imap indexed_point catalog)],
   Ok (Globals catalog
         {[ COLLECTION_NAME :=
              Qdrant.Collection get_sentence_embedding_dimension
                (imap indexed_point catalog) ]})).
Proof.
  pose proof (load_module_run catalog) as Hout.
  rewrite (surjective_pairing (load_module catalog)).
  change (load_module catalog).2 with (outcome (load_module catalog)).
  rewrite Hout. f_equal.
  change (load_module catalog).1 with (calls (load_module catalog)).
  unfold load_module.
  assert (try_except
            (client_get_collection (∅ : Qdrant.client) COLLECTION_NAME ;;;
             client_delete_collection (∅ : Qdrant.client) COLLECTION_NAME)
            (fun _ => ret (∅ : Qdrant.client))
          = ([GetCollectionCall COLLECTION_NAME], Ok (∅ : Qdrant.client))) as Htry.
  { unfold client_get_collection, Qdrant.get_collection. rewrite lookup_empty. done. }
  assert (client_create_collection (∅ : Qdrant.client) COLLECTION_NAME
            get_sentence_embedding_dimension
          = ([CreateCollectionCall COLLECTION_NAME get_sentence_embedding_dimension],
             Ok (<[COLLECTION_NAME :=
                     Qdrant.Collection get_sentence_embedding_dimension []]>
                   (∅ : Qdrant.client)))) as Hcreate.
  { unfold client_create_collection, Qdrant.create_collection. rewrite lookup_empty. done. }
  pose proof (make_points_run 0 catalog) as Hpts.
  pose proof (make_points_calls 0 catalog) as Hcalls.
  cbn [Nat.add] in Hpts, Hcalls. unfold py_enumerate.
  rewrite calls_bind, Htry. cbn [outcome calls fst snd app]. f_equal.
  rewrite calls_bind, Hcreate. cbn [outcome calls fst snd app]. f_equal.
  rewrite calls_bind, Hpts, Hcalls. f_equal.
Qed.

End IndexerCalls.

(** Loading the module probes for the collection, creates it, encodes the
    text [name description] of every product once, in catalog order, and
    upserts all the points in one batch. The probe never finds a
    collection on the fresh in-memory client, so nothing is ever deleted. *)
Theorem load_module_calls (W : services) (catalog : list product) :
  calls (load_module catalog) =
    [GetCollectionCall COLLECTION_NAME;
     CreateCollectionCall COLLECTION_NAME get_sentence_embedding_dimension]
      ++ ((fun p => EncodeCall (p_name p +:+ " " +:+ p_description p)%string) <$> catalog)
      ++ [UpsertCall COLLECTION_NAME (imap indexed_point catalog)] ∧
  forall name, DeleteCollectionCall name ∉ calls (load_module catalog).
Proof.
  rewrite load_module_full_run. split; [done|]. cbn [calls fst].
  intros name Hin. rewrite !elem_of_app in Hin. destruct Hin as [Hin|[Hin|Hin]].
  - repeat (apply elem_of_cons in Hin as [?|Hin]; [done|]). by apply elem_of_nil in Hin.
  - by apply list_elem_of_fmap in Hin as (p & ? & _).
  - by apply list_elem_of_singleton in Hin.
Qed.

(** ** What the vector search returns *)

Lemma insert_ranked_Permutation (h : Qdrant.ScoredPoint) (l : list Qdrant.ScoredPoint) :
  Qdrant.insert_ranked h l ≡ₚ h :: l.
Proof.
  induction l as [|h' l IH]; simpl; [done|].
  destruct (PrimFloat.leb _ _); [done|]. rewrite IH. apply Permutation_swap.
Qed.

Lemma rank_Permutation (l : list Qdrant.ScoredPoint) : Qdrant.rank l ≡ₚ l.
Proof.
  unfold Qdrant.rank. induction l as [|h l IH]; simpl; [done|].
  by rewrite insert_ranked_Permutation, IH.
Qed.

Lemma submseteq_NoDup {A} (l k : list A) : l ⊆+ k -> NoDup k -> NoDup l.
Proof.
  intros (k' & Hk)%submseteq_Permutation Hnd. rewrite Hk in Hnd.
  by apply NoDup_app in Hnd as (? & _ & _).
Qed.

Section Selection.
Context `{W : services}.

(** The products whose payload passes the filter built from [brand_filter]. *)
Lemma scored_selected (f : option Qdrant.Filter) (query : string) (n : nat)
    (catalog : list product) :
  result_of_hit <$>
    ((fun pt => Qdrant.Scored (Qdrant.id pt) (Qdrant.payload_of pt)
                  (cosine (encode query) (Qdrant.vector pt)))
       <$> filter (fun pt => Qdrant.check_filter f (Qdrant.payload_of pt) = true)
             (imap (fun i p => indexed_point (n + i) p) catalog))
  = result_for query
      <$> filter (fun p => Qdrant.check_filter f
                             (Qdrant.Payload (p_name p) (p_price p) (p_brand p) (p_category p))
                           = true) catalog.
Proof.
  revert n. induction catalog as [|p catalog IH]; intros n; [done|].
  cbn [imap]. rewrite !filter_cons.
  erewrite (imap_ext _ (fun i x => indexed_point (S n + i) x));
    [|intros i x _; cbn; do 2 f_equal; lia].
  cbn [indexed_point Qdrant.payload_of].
  destruct (decide _) as [Hp|Hp]; rewrite ?fmap_cons, IH; done.
Qed.

Lemma search_products_selected (catalog : list product) (G : globals) (query : string)
    (top_k : Z) (brand_filter : option string) :
  outcome (load_module catalog) = Ok G ->
  exists rs,
    outcome (search_products G query top_k brand_filter) = Ok rs ∧
    rs ⊆+ result_for query
            <$> filter (fun p => Qdrant.check_filter (qdrant_filter_of brand_filter)
                                   (Qdrant.Payload (p_name p) (p_price p) (p_brand p)
                                      (p_category p)) = true) catalog ∧
    length rs =
      (Z.to_nat top_k `min`
       length (filter (fun p => Qdrant.check_filter (qdrant_filter_of brand_filter)
                                  (Qdrant.Payload (p_name p) (p_price p) (p_brand p)
                                     (p_category p)) = true) catalog)).
Proof.
  intros [_ Hcol]%load_module_globals.
  destruct (search_products_run G query top_k brand_filter _ Hcol) as (hits & Hs & Hrun).
  exists (result_of_hit <$> hits). split; [by rewrite Hrun|].
  unfold Qdrant.search in Hs. rewrite Hcol in Hs. injection Hs as <-.
  cbn [Qdrant.points].
  pose proof (scored_selected (qdrant_filter_of brand_filter) query 0 catalog) as Hsel.
  cbn [Nat.add] in Hsel.
  pose proof (f_equal length Hsel) as Hlen. rewrite !length_fmap in Hlen.
  rewrite <- Hsel, <- Hlen. split.
  - apply fmap_submseteq. etrans; [apply sublist_submseteq, sublist_take|].
    apply Permutation_submseteq, rank_Permutation.
  - by rewrite !length_fmap, length_take, rank_length, length_fmap.
Qed.

Lemma filter_all_pass (catalog : list product) :
  filter (fun p => Qdrant.check_filter None
                     (Qdrant.Payload (p_name p) (p_price p) (p_brand p) (p_category p))
                   = true) catalog = catalog.
Proof.
  induction catalog as [|p catalog IH]; [done|].
  rewrite filter_cons_True by done. by rewrite IH.
Qed.

Lemma filter_brand_pass (brand : string) (catalog : list product) :
  brand ≠ ""%string ->
  filter (fun p => Qdrant.check_filter (qdrant_filter_of (Some brand))
                     (Qdrant.Payload (p_name p) (p_price p) (p_brand p) (p_category p))
                   = true) catalog
  = filter (fun p => p_brand p = brand) catalog.
Proof.
  intros Hne. apply list_filter_iff. intros p. unfold qdrant_filter_of.
  destruct (String.eqb_spec brand ""); [done|]. split.
  - apply check_brand_condition.
  - intros <-. unfold Qdrant.check_filter, Qdrant.check_condition. cbn.
    by rewrite String.eqb_refl.
Qed.

Lemma map_indices_nil (indices : json) (out : list product) :
  outcome (map_indices [] indices) = Ok out -> out = [].
Proof.
  unfold map_indices. destruct (py_iter indices) as [elements|e]; [|done].
  rewrite bind_lift_Ok. destruct elements as [|v elements]; [by intros [= <-]|].
  cbn [comprehension]. rewrite outcome_bind.
  destruct (index_value v) as [i|] eqn:Hv.
  - rewrite (index_value_element _ _ _ Hv).
    rewrite py_getitem_out_of_range by (cbn; lia). done.
  - by rewrite (other_element_raises _ _ Hv).
Qed.

Lemma semantic_search_nil (query : string) (top_k : Z) :
  outcome (semantic_search query [] top_k) = Ok [].
Proof.
  rewrite semantic_search_run, outcome_bind.
  destruct (outcome (fetch_indices _)) as [indices|e]; [|done].
  destruct (outcome (map_indices [] indices)) as [out|e] eqn:Hout; [|done].
  by rewrite (map_indices_nil _ _ Hout).
Qed.

End Selection.

(** Without a brand filter, [search_products] returns records of catalog
    products, each product at most once: [min(top_k, N)] of them, so all of
    them, each exactly once, when [top_k] covers the catalog. A record has
    the product's name, price, brand and category, and as score the
    similarity of the query to the product's text. *)
Theorem search_products_no_filter (W : services) (catalog : list product)
    (G : globals) (query : string) (top_k : Z) :
  outcome (load_module catalog) = Ok G ->
  exists rs,
    outcome (search_products G query top_k None) = Ok rs ∧
    rs ⊆+ result_for query <$> catalog ∧
    length rs = Z.to_nat top_k `min` length catalog ∧
    (length catalog ≤ Z.to_nat top_k -> rs ≡ₚ result_for query <$> catalog).
Proof.
  intros Hload.
  destruct (search_products_selected catalog G query top_k None Hload) as (rs & Hrs & Hsub & Hlen).
  cbn [qdrant_filter_of] in Hsub, Hlen. rewrite filter_all_pass in Hsub, Hlen.
  exists rs. split_and!; [done..|].
  intros Hk. apply submseteq_length_Permutation; [done|]. rewrite length_fmap. lia.
Qed.

Lemma search_products_no_filter_witness :
  outcome (@load_module Mock.unreachable Mock.catalog) = Ok Mock.loaded ∧
  exists rs,
    outcome (@search_products Mock.unreachable Mock.loaded "phone" 2 None) = Ok rs ∧
    rs ⊆+ @result_for Mock.unreachable "phone" <$> Mock.catalog ∧
    length rs = Z.to_nat 2 `min` length Mock.catalog ∧
    (length Mock.catalog ≤ Z.to_nat 2 ->
     rs ≡ₚ @result_for Mock.unreachable "phone" <$> Mock.catalog).
Proof.
  split; [vm_compute; reflexivity|].
  apply (search_products_no_filter Mock.unreachable Mock.catalog Mock.loaded "phone" 2).
  vm_compute; reflexivity.
Defined.

(** With a non-empty brand filter, [search_products] returns records of
    the products of exactly that brand, each at most once:
    [min(top_k, matches)] of them, so all the matches when [top_k] covers
    them, and the empty list, not an error, when no product has the
    brand. *)
Theorem search_products_brand_matches (W : services) (catalog : list product)
    (G : globals) (query : string) (top_k : Z) (brand : string) :
  outcome (load_module catalog) = Ok G ->
  brand ≠ ""%string ->
  exists rs,
    outcome (search_products G query top_k (Some brand)) = Ok rs ∧
    rs ⊆+ result_for query <$> filter (fun p => p_brand p = brand) catalog ∧
    length rs = Z.to_nat top_k `min` length (filter (fun p => p_brand p = brand) catalog) ∧
    (length (filter (fun p => p_brand p = brand) catalog) ≤ Z.to_nat top_k ->
     rs ≡ₚ result_for query <$> filter (fun p => p_brand p = brand) catalog) ∧
    (Forall (fun p => p_brand p ≠ brand) catalog -> rs = []).
Proof.
  intros Hload Hne.
  destruct (search_products_selected catalog G query top_k (Some brand) Hload)
    as (rs & Hrs & Hsub & Hlen).
  rewrite filter_brand_pass in Hsub, Hlen by done.
  exists rs. split_and!; [done..| |].
  - intros Hk. apply submseteq_length_Permutation; [done|]. rewrite length_fmap. lia.
  - intros Hnone. apply nil_length_inv. rewrite Hlen.
    replace (filter (fun p => p_brand p = brand) catalog) with (@nil product); [simpl; lia|].
    symmetry. clear -Hnone. induction Hnone as [|p catalog Hp _ IH]; [done|].
    by rewrite filter_cons_False.
Qed.

Lemma search_products_brand_matches_witness :
  outcome (@load_module Mock.unreachable Mock.catalog) = Ok Mock.loaded ∧
  "X"%string ≠ ""%string ∧
  exists rs,
    outcome (@search_products Mock.unreachable Mock.loaded "phone" 5 (Some "X"%string)) = Ok rs ∧
    rs ⊆+ @result_for Mock.unreachable "phone"
            <$> filter (fun p => p_brand p = "X"%string) Mock.catalog ∧
    length rs = Z.to_nat 5 `min`
                length (filter (fun p => p_brand p = "X"%string) Mock.catalog) ∧
    (length (filter (fun p => p_brand p = "X"%string) Mock.catalog) ≤ Z.to_nat 5 ->
     rs ≡ₚ @result_for Mock.unreachable "phone"
             <$> filter (fun p => p_brand p = "X"%string) Mock.catalog) ∧
    (Forall (fun p => p_brand p ≠ "X"%string) Mock.catalog -> rs = []).
Proof.
  split; [vm_compute; reflexivity|]. split; [discriminate|].
  apply (search_products_brand_matches Mock.unreachable Mock.catalog Mock.loaded "phone" 5 "X").
  - vm_compute; reflexivity.
  - discriminate.
Defined.

(** ** The empty catalog *)

(** On an empty catalog the three entry points return the empty list,
    whatever the query, [top_k], the brand filter and the answer of the
    language model. *)
Theorem empty_catalog_returns_nothing (W : services) (G : globals) (query : string)
    (top_k : Z) (brand_filter : option string) :
  outcome (load_module []) = Ok G ->
  outcome (search_products G query top_k brand_filter) = Ok [] ∧
  outcome (semantic_search query (products G) top_k) = Ok [] ∧
  outcome (hybrid_search G query top_k) = Ok [].
Proof.
  intros Hload.
  pose proof (load_module_globals _ _ Hload) as [Hprod Hcol].
  assert (forall bf, outcome (search_products G query top_k bf) = Ok []) as Hsearch.
  { intros bf.
    destruct (search_products_selected [] G query top_k bf Hload) as (rs & Hrs & _ & Hlen).
    rewrite Hrs. f_equal. apply nil_length_inv. rewrite Hlen. cbn. lia. }
  split; [apply Hsearch|]. rewrite Hprod. split; [apply semantic_search_nil|].
  destruct (hybrid_search_run G query top_k _ Hcol) as (vr & sr & Hvr & Hsr & _ & -> & _).
  rewrite Hsearch in Hvr. rewrite Hprod, semantic_search_nil in Hsr.
  injection Hvr as <-. injection Hsr as <-.
  rewrite merge_results_spec. cbn. unfold py_slice_to. by rewrite !take_nil, Tauto.if_same.
Qed.

Lemma empty_catalog_returns_nothing_witness :
  outcome (@load_module (Mock.answering [1; 2]%Z) []) = Ok Faults.loaded_empty ∧
  outcome (@search_products (Mock.answering [1; 2]%Z) Faults.loaded_empty "phone" 3
             (Some "X"%string)) = Ok [] ∧
  outcome (@semantic_search (Mock.answering [1; 2]%Z) "phone"
             (products Faults.loaded_empty) 3) = Ok [] ∧
  outcome (@hybrid_search (Mock.answering [1; 2]%Z) Faults.loaded_empty "phone" 3) = Ok [].
Proof.
  split; [vm_compute; reflexivity|].
  apply (empty_catalog_returns_nothing (Mock.answering [1; 2]%Z) Faults.loaded_empty
           "phone" 3 (Some "X"%string)).
  vm_compute; reflexivity.
Defined.

(** ** The shape of the hybrid merge *)

Lemma py_slice_to_take {A} (l : list A) (k : Z) : exists n, py_slice_to l k = take n l.
Proof. unfold py_slice_to. destruct (k <? 0)%Z; by eexists. Qed.

Lemma py_slice_to_covering {A} (l : list A) (k : Z) :
  length l ≤ Z.to_nat k -> py_slice_to l k = l.
Proof.
  intros Hlen. unfold py_slice_to. destruct (Z.ltb_spec k 0).
  - destruct l; [by rewrite take_nil | simpl in Hlen; lia].
  - by apply take_ge.
Qed.

Lemma first_occurrences_vectors (seen : list string) (vr : list search_result) :
  exists vs,
    first_occurrences seen (VectorItem <$> vr) = VectorItem <$> vs ∧ vs `sublist_of` vr.
Proof.
  revert seen. induction vr as [|r vr IH]; intros seen; [by exists []|].
  rewrite fmap_cons. simpl. case_bool_decide.
  - destruct (IH seen) as (vs & -> & Hsub). exists vs. split; [done | by apply sublist_cons].
  - destruct (IH (r_name r :: seen)) as (vs & -> & Hsub).
    exists (r :: vs). split; [done | by apply sublist_skip].
Qed.

Lemma first_occurrences_products (seen : list string) (sr : list product) :
  exists cs,
    first_occurrences seen (CatalogItem <$> sr) = CatalogItem <$> cs ∧
    cs `sublist_of` sr ∧
    Forall (fun c => p_name c ∉ seen) cs.
Proof.
  revert seen. induction sr as [|c sr IH]; intros seen; [by exists []|].
  rewrite fmap_cons. simpl. case_bool_decide as Hc.
  - destruct (IH seen) as (cs & -> & Hsub & Hnew).
    exists cs. split_and!; [done | by apply sublist_cons | done].
  - destruct (IH (p_name c :: seen)) as (cs & -> & Hsub & Hnew).
    exists (c :: cs). split_and!; [done | by apply sublist_skip |].
    constructor; [done|]. eapply Forall_impl; [exact Hnew|].
    intros c' Hc'. cbn beta in Hc'. rewrite not_elem_of_cons in Hc'. tauto.
Qed.

Lemma first_occurrences_id (seen : list string) (l : list item) :
  NoDup (item_name <$> l) ->
  (forall e, e ∈ l -> item_name e ∉ seen) ->
  first_occurrences seen l = l.
Proof.
  revert seen. induction l as [|p l IH]; intros seen Hnd Hseen; [done|].
  rewrite fmap_cons in Hnd. apply NoDup_cons in Hnd as [Hp Hnd].
  rewrite first_occurrences_keep by (apply Hseen, elem_of_cons; by left).
  f_equal. apply IH; [done|].
  intros e He. rewrite not_elem_of_cons. split.
  - intros Heq. apply Hp. rewrite <- Heq. by apply list_elem_of_fmap_2.
  - apply Hseen, elem_of_cons. by right.
Qed.

(** The merge lists vector results first and semantic results after them:
    it is a selection of the vector results, in their order, followed by a
    selection of the semantic results, in their order, none of which has a
    name that occurs in the vector results. This holds for every [top_k]. *)
Theorem merge_results_vector_then_semantic (vector_results : list search_result)
    (semantic_results : list product) (top_k : Z) :
  exists vs cs,
    merge_results vector_results semantic_results top_k
      = (VectorItem <$> vs) ++ (CatalogItem <$> cs) ∧
    vs `sublist_of` vector_results ∧
    cs `sublist_of` semantic_results ∧
    Forall (fun c => p_name c ∉ r_name <$> vector_results) cs.
Proof.
  rewrite merge_results_spec, first_occurrences_app.
  destruct (first_occurrences_vectors [] vector_results) as (vs & -> & Hvs).
  destruct (first_occurrences_products
              ((item_name <$> (VectorItem <$> vector_results)) ++ []) semantic_results)
    as (cs & -> & Hcs & Hnew).
  destruct (py_slice_to_take ((VectorItem <$> vs) ++ (CatalogItem <$> cs)) top_k) as [n ->].
  exists (take n vs), (take (n - length (VectorItem <$> vs)) cs).
  split_and!.
  - by rewrite take_app, !fmap_take.
  - etrans; [apply sublist_take | done].
  - etrans; [apply sublist_take | done].
  - apply Forall_take. eapply Forall_impl; [exact Hnew|].
    intros c Hc. cbn beta in Hc.
    by rewrite app_nil_r, <- list_fmap_compose in Hc.
Qed.

(** When no name occurs twice among the vector results followed by the
    semantic results, the merge drops nothing but what the slice cuts: it
    is the slice of the two lists put end to end. *)
Theorem merge_results_distinct_names (vector_results : list search_result)
    (semantic_results : list product) (top_k : Z) :
  NoDup ((r_name <$> vector_results) ++ (p_name <$> semantic_results)) ->
  merge_results vector_results semantic_results top_k
  = py_slice_to ((VectorItem <$> vector_results) ++ (CatalogItem <$> semantic_results)) top_k.
Proof.
  intros Hnd. rewrite merge_results_spec. f_equal.
  apply first_occurrences_id; [|intros; apply not_elem_of_nil].
  by rewrite fmap_app, <- !list_fmap_compose.
Qed.

Lemma merge_results_distinct_names_witness :
  NoDup ((r_name <$> [SearchResult "A" (NInt 1) "X" "c" 0.5%float])
           ++ (p_name <$> [Mock.phone_a; Mock.phone_b])) ∧
  merge_results [SearchResult "A" (NInt 1) "X" "c" 0.5%float] [Mock.phone_a; Mock.phone_b] 2
  = py_slice_to ((VectorItem <$> [SearchResult "A" (NInt 1) "X" "c" 0.5%float])
                   ++ (CatalogItem <$> [Mock.phone_a; Mock.phone_b])) 2.
Proof.
  assert (NoDup ((r_name <$> [SearchResult "A" (NInt 1) "X" "c" 0.5%float])
                   ++ (p_name <$> [Mock.phone_a; Mock.phone_b]))) as Hnd.
  { apply (bool_decide_unpack _). vm_compute. exact I. }
  split; [exact Hnd|].
  apply (merge_results_distinct_names [SearchResult "A" (NInt 1) "X" "c" 0.5%float]
           [Mock.phone_a; Mock.phone_b] 2).
  exact Hnd.
Defined.

(** A merge shorter than a non-negative [top_k] has lost no name: every
    name of the vector and semantic results is the name of an entry. *)
Theorem merge_results_short_is_complete (vector_results : list search_result)
    (semantic_results : list product) (top_k : Z) (e : item) :
  (0 ≤ top_k)%Z ->
  (Z.of_nat (length (merge_results vector_results semantic_results top_k)) < top_k)%Z ->
  e ∈ (VectorItem <$> vector_results) ++ (CatalogItem <$> semantic_results) ->
  item_name e ∈ item_name <$> merge_results vector_results semantic_results top_k.
Proof.
  rewrite merge_results_spec. intros Hk Hlen He.
  rewrite py_slice_to_nonneg in * by done.
  rewrite length_take in Hlen. rewrite take_ge by lia.
  destruct (first_occurrences_complete [] _ e He) as (e' & He' & Hname);
    [apply not_elem_of_nil|].
  rewrite <- Hname. by apply list_elem_of_fmap_2.
Qed.

Lemma merge_results_short_is_complete_witness :
  (0 ≤ 5)%Z ∧
  (Z.of_nat (length (merge_results [SearchResult "Phone A" (NInt 100) "X" "phones" 0.5%float]
                       [Mock.phone_a; Mock.phone_b] 5)) < 5)%Z ∧
  CatalogItem Mock.phone_a
    ∈ (VectorItem <$> [SearchResult "Phone A" (NInt 100) "X" "phones" 0.5%float])
        ++ (CatalogItem <$> [Mock.phone_a; Mock.phone_b]) ∧
  item_name (CatalogItem Mock.phone_a)
    ∈ item_name <$> merge_results [SearchResult "Phone A" (NInt 100) "X" "phones" 0.5%float]
                      [Mock.phone_a; Mock.phone_b] 5.
Proof.
  assert (CatalogItem Mock.phone_a
            ∈ (VectorItem <$> [SearchResult "Phone A" (NInt 100) "X" "phones" 0.5%float])
                ++ (CatalogItem <$> [Mock.phone_a; Mock.phone_b])) as Hin.
  { apply elem_of_cons. right. apply elem_of_cons. by left. }
  split; [lia|]. split; [vm_compute; reflexivity|]. split; [exact Hin|].
  apply (merge_results_short_is_complete
           [SearchResult "Phone A" (NInt 100) "X" "phones" 0.5%float]
           [Mock.phone_a; Mock.phone_b] 5 (CatalogItem Mock.phone_a)).
  - lia.
  - vm_compute; reflexivity.
  - exact Hin.
Defined.

(** ** Hybrid search and its collaborators *)

(** [hybrid_search] calls the encoder, then the index without a filter
    and with limit [top_k], then the language model with the whole
    catalog in the prompt, in that order; the only other event is the
    diagnostic of a failed ranking. *)
Theorem hybrid_search_call_order (W : services) (catalog : list product) (G : globals)
    (query : string) (top_k : Z) :
  outcome (load_module catalog) = Ok G ->
  exists rest,
    calls (hybrid_search G query top_k) =
      [EncodeCall query;
       SearchCall COLLECTION_NAME (encode query) None top_k;
       PostCall (build_request (build_prompt query (build_context catalog) top_k))]
        ++ rest ∧
    (rest = [] ∨ exists e, rest = [PrintError e]).
Proof.
  intros [Hprod Hcol]%load_module_globals.
  destruct (hybrid_search_run G query top_k _ Hcol) as (vr & sr & _ & _ & _ & _ & ->).
  destruct (search_products_run G query top_k None _ Hcol) as (hits & _ & ->).
  rewrite Hprod, semantic_search_run. cbn [calls fst qdrant_filter_of].
  destruct (outcome _) as [out|e].
  - exists []. split; [done | by left].
  - exists [PrintError e]. split; [done | right; by eexists].
Qed.

Lemma hybrid_search_call_order_witness :
  outcome (@load_module Mock.unreachable Mock.catalog) = Ok Mock.loaded ∧
  exists rest,
    calls (@hybrid_search Mock.unreachable Mock.loaded "phone" 2) =
      [EncodeCall "phone";
       SearchCall COLLECTION_NAME (@encode Mock.unreachable "phone") None 2;
       PostCall (@build_request Mock.unreachable
                   (build_prompt "phone" (@build_context Mock.unreachable Mock.catalog) 2))]
        ++ rest ∧
    (rest = [] ∨ exists e, rest = [PrintError e]).
Proof.
  split; [vm_compute; reflexivity|].
  apply (hybrid_search_call_order Mock.unreachable Mock.catalog Mock.loaded "phone" 2).
  vm_compute; reflexivity.
Defined.

(** When the ranking gives nothing (it failed, or the model chose nothing)
    and the names of the catalog are distinct, [hybrid_search] returns
    exactly the vector results, for every [top_k]. *)
Theorem hybrid_search_degrades (W : services) (catalog : list product) (G : globals)
    (query : string) (top_k : Z) :
  outcome (load_module catalog) = Ok G ->
  NoDup (p_name <$> catalog) ->
  outcome (semantic_search query catalog top_k) = Ok [] ->
  exists vr,
    outcome (search_products G query top_k None) = Ok vr ∧
    outcome (hybrid_search G query top_k) = Ok (VectorItem <$> vr).
Proof.
  intros Hload Hnd Hsem.
  pose proof (load_module_globals _ _ Hload) as [Hprod Hcol].
  destruct (hybrid_search_run G query top_k _ Hcol) as (vr & sr & Hvr & Hsr & Hlen & Hout & _).
  rewrite Hprod, Hsem in Hsr. injection Hsr as <-.
  exists vr. split; [done|]. rewrite Hout. f_equal.
  destruct (search_products_selected catalog G query top_k None Hload) as (rs & Hrs & Hsub & _).
  rewrite Hvr in Hrs. injection Hrs as <-.
  cbn [qdrant_filter_of] in Hsub. rewrite filter_all_pass in Hsub.
  assert (NoDup (r_name <$> vr)) as Hnames.
  { apply (submseteq_NoDup _ (p_name <$> catalog)); [|done].
    replace (p_name <$> catalog) with (r_name <$> (result_for query <$> catalog)).
    - by apply fmap_submseteq.
    - rewrite <- list_fmap_compose. done. }
  rewrite merge_results_spec. cbn [fmap list_fmap]. rewrite app_nil_r.
  rewrite first_occurrences_id.
  - apply py_slice_to_covering. by rewrite length_fmap.
  - by rewrite <- list_fmap_compose.
  - intros; apply not_elem_of_nil.
Qed.

Lemma hybrid_search_degrades_witness :
  outcome (@load_module Mock.unreachable Mock.catalog) = Ok Mock.loaded ∧
  NoDup (p_name <$> Mock.catalog) ∧
  outcome (@semantic_search Mock.unreachable "phone" Mock.catalog 2) = Ok [] ∧
  exists vr,
    outcome (@search_products Mock.unreachable Mock.loaded "phone" 2 None) = Ok vr ∧
    outcome (@hybrid_search Mock.unreachable Mock.loaded "phone" 2) = Ok (VectorItem <$> vr).
Proof.
  assert (NoDup (p_name <$> Mock.catalog)) as Hnd.
  { apply (bool_decide_unpack _). vm_compute. exact I. }
  split; [vm_compute; reflexivity|]. split; [exact Hnd|]. split; [vm_compute; reflexivity|].
  apply (hybrid_search_degrades Mock.unreachable Mock.catalog Mock.loaded "phone" 2).
  - vm_compute; reflexivity.
  - exact Hnd.
  - vm_compute; reflexivity.
Defined.

(** ** The interactive loop *)

Lemma inputs_ind2 (P : list string -> Prop) :
  P [] -> (forall x, P [x]) -> (forall x y l, P l -> P (x :: y :: l)) -> forall l, P l.
Proof.
  intros Hnil Hone Hstep l.
  enough (P l ∧ forall x, P (x :: l)) as [? _] by done.
  induction l as [|y l [IH1 IH2]]; [by split|].
  split; [apply IH2|]. intros x. by apply Hstep.
Qed.

Section Loop.
Context `{W : services}.

Lemma main_exit (G : globals) (query : string) (rest : list string) :
  is_exit query = true -> main G (query :: rest) = ([Asked QUERY_PROMPT query], Exited).
Proof. intros Hq. cbn [main]. by rewrite Hq. Qed.

Lemma main_round (G : globals) (query choice : string) (rest : list string) :
  is_exit query = false ->
  main G (query :: choice :: rest) =
  match dispatch G query choice with
  | None =>
      ((Asked QUERY_PROMPT query :: menu ++ [Asked CHOICE_PROMPT choice])
         ++ Printed "Невірний вибір" :: (main G rest).1,
       (main G rest).2)
  | Some (evs, Ok results) =>
      ((Asked QUERY_PROMPT query :: menu ++ [Asked CHOICE_PROMPT choice])
         ++ (Call <$> evs) ++ report results ++ (main G rest).1,
       (main G rest).2)
  | Some (evs, Raise e) =>
      ((Asked QUERY_PROMPT query :: menu ++ [Asked CHOICE_PROMPT choice]) ++ (Call <$> evs),
       Raised e)
  end.
Proof.
  intros Hq. cbn [main]. rewrite Hq.
  destruct (dispatch G query choice) as [[evs [results|e]]|]; [|done|];
    by destruct (main G rest).
Qed.

Lemma search_products_calls (G : globals) (query : string) (top_k : Z)
    (brand_filter : option string) :
  calls (search_products G query top_k brand_filter) =
  [EncodeCall query;
   SearchCall COLLECTION_NAME (encode query) (qdrant_filter_of brand_filter) top_k].
Proof.
  unfold search_products, encoder_encode, client_search. cbn.
  by destruct (Qdrant.search _ _ _ _ _ _).
Qed.

Lemma dispatch_returns (catalog : list product) (G : globals) (query choice : string)
    (m : M (list item)) :
  outcome (load_module catalog) = Ok G ->
  dispatch G query choice = Some m ->
  exists results, outcome m = Ok results.
Proof.
  intros [_ Hcol]%load_module_globals. unfold dispatch.
  repeat case_match; intros [= <-].
  - destruct (search_products_run G query 3 None _ Hcol) as (hits & _ & Hrun).
    rewrite outcome_bind, Hrun. by eexists.
  - destruct (semantic_search_returns query (products G) 3) as (out & Hout).
    rewrite outcome_bind, Hout. by eexists.
  - destruct (hybrid_search_run G query 3 _ Hcol) as (vr & sr & _ & _ & _ & Hout & _).
    by eexists.
Qed.

Lemma report_no_call (results : list item) (e : event) : Call e ∉ report results.
Proof.
  destruct results as [|p results]; cbn [report].
  - by intros ?%list_elem_of_singleton.
  - intros [?|(ip & ? & _)%list_elem_of_fmap]%elem_of_cons; done.
Qed.

Lemma asked_no_call (query choice : string) (e : event) :
  Call e ∉ Asked QUERY_PROMPT query :: menu ++ [Asked CHOICE_PROMPT choice].
Proof.
  unfold menu. cbn [app]. intros Hin.
  repeat (apply elem_of_cons in Hin as [?|Hin]; [done|]). by apply elem_of_nil in Hin.
Qed.

(** Every call to a collaborator in a session belongs to a search that a
    typed choice selected. *)
Lemma main_calls (G : globals) (inputs : list string) (e : event) :
  Call e ∈ (main G inputs).1 ->
  exists query choice m,
    choice ∈ inputs ∧ dispatch G query choice = Some m ∧ e ∈ calls m.
Proof.
  induction inputs as [|query|query choice rest IH] using inputs_ind2.
  - by intros ?%list_elem_of_singleton.
  - cbn [main]. destruct (is_exit query).
    + by intros ?%list_elem_of_singleton.
    + unfold menu. cbn [fst app]. intros Hin.
      repeat (apply elem_of_cons in Hin as [?|Hin]; [done|]). by apply elem_of_nil in Hin.
  - destruct (is_exit query) eqn:Hq.
    { rewrite main_exit by done. by intros ?%list_elem_of_singleton. }
    rewrite main_round by done.
    assert (forall x, x ∈ rest -> x ∈ query :: choice :: rest) as Hrest.
    { intros x Hx. apply elem_of_cons. right. apply elem_of_cons. by right. }
    destruct (dispatch G query choice) as [[evs [results|e']]|] eqn:Hd; cbn [fst].
    + rewrite !elem_of_app.
      intros [Hin|[(e0 & [= <-] & He0)%list_elem_of_fmap|[Hin|Hin]]].
      * by apply asked_no_call in Hin.
      * exists query, choice, (evs, Ok results). split_and!; [|done..].
        apply elem_of_cons. right. apply elem_of_cons. by left.
      * by apply report_no_call in Hin.
      * destruct (IH Hin) as (q & c & m & Hc & Hm & He). exists q, c, m. auto.
    + rewrite elem_of_app.
      intros [Hin|(e0 & [= <-] & He0)%list_elem_of_fmap].
      * by apply asked_no_call in Hin.
      * exists query, choice, (evs, Raise e'). split_and!; [|done..].
        apply elem_of_cons. right. apply elem_of_cons. by left.
    + intros [Hin|Hin]%elem_of_app; [by apply asked_no_call in Hin|].
      apply elem_of_cons in Hin as [?|Hin]; [done|].
      destruct (IH Hin) as (q & c & m & Hc & Hm & He). exists q, c, m. auto.
Qed.

End Loop.

(** Once the module is loaded, a session never ends in an exception of a
    search: whatever is typed, it ends by [exit] or at the end of the
    input. *)
Theorem main_never_raises (W : services) (catalog : list product) (G : globals)
    (inputs : list string) :
  outcome (load_module catalog) = Ok G ->
  (main G inputs).2 = Exited ∨ (main G inputs).2 = EOFError.
Proof.
  intros Hload.
  induction inputs as [|query|query choice rest IH] using inputs_ind2.
  - by right.
  - cbn [main]. destruct (is_exit query); [by left | by right].
  - destruct (is_exit query) eqn:Hq; [left; by rewrite main_exit|].
    rewrite main_round by done.
    destruct (dispatch G query choice) as [[evs [results|e]]|] eqn:Hd; [done| |done].
    destruct (dispatch_returns _ _ _ _ _ Hload Hd) as [results Hres]. done.
Qed.

Lemma main_never_raises_witness :
  outcome (@load_module (Mock.answering [2; 1]%Z) Mock.catalog) = Ok Mock.loaded ∧
  ((@main (Mock.answering [2; 1]%Z) Mock.loaded ["phone"; "3"; "laptop"; "7"; "Exit"]).2 = Exited
   ∨ (@main (Mock.answering [2; 1]%Z) Mock.loaded ["phone"; "3"; "laptop"; "7"; "Exit"]).2
     = EOFError).
Proof.
  split; [vm_compute; reflexivity|].
  apply (main_never_raises (Mock.answering [2; 1]%Z) Mock.catalog Mock.loaded
           ["phone"; "3"; "laptop"; "7"; "Exit"]).
  vm_compute; reflexivity.
Defined.

(** After complete rounds, a query that spells [exit] ends the session:
    what was typed after it is never read and changes nothing. *)
Theorem main_stops_at_exit (W : services) (catalog : list product) (G : globals)
    (rounds : list (string * string)) (query : string) (rest : list string) :
  outcome (load_module catalog) = Ok G ->
  Forall (fun qc => is_exit qc.1 = false) rounds ->
  is_exit query = true ->
  main G (session rounds ++ query :: rest) = main G (session rounds ++ [query]) ∧
  (main G (session rounds ++ query :: rest)).2 = Exited.
Proof.
  intros Hload Hrounds Hq.
  induction Hrounds as [|[q c] rounds Hqc _ [IH1 IH2]].
  - change (session []) with (@nil string). cbn [app]. by rewrite !main_exit.
  - change (session ((q, c) :: rounds)) with (q :: c :: session rounds).
    cbn [app]. cbn in Hqc. rewrite !main_round by done.
    destruct (dispatch G q c) as [[evs [results|e]]|] eqn:Hd.
    + split; [by rewrite IH1 | exact IH2].
    + destruct (dispatch_returns _ _ _ _ _ Hload Hd) as [results Hres]. done.
    + split; [by rewrite IH1 | exact IH2].
Qed.

Lemma main_stops_at_exit_witness :
  outcome (@load_module (Mock.answering [2; 1]%Z) Mock.catalog) = Ok Mock.loaded ∧
  Forall (fun qc => is_exit qc.1 = false) [("phone", "2"); ("exit now", "9")] ∧
  is_exit "EXIT" = true ∧
  @main (Mock.answering [2; 1]%Z) Mock.loaded
    (session [("phone", "2"); ("exit now", "9")] ++ "EXIT" :: ["laptop"; "1"])
  = @main (Mock.answering [2; 1]%Z) Mock.loaded
      (session [("phone", "2"); ("exit now", "9")] ++ ["EXIT"]) ∧
  (@main (Mock.answering [2; 1]%Z) Mock.loaded
     (session [("phone", "2"); ("exit now", "9")] ++ "EXIT" :: ["laptop"; "1"])).2 = Exited.
Proof.
  split; [vm_compute; reflexivity|].
  split; [repeat constructor|]. split; [reflexivity|].
  apply (main_stops_at_exit (Mock.answering [2; 1]%Z) Mock.catalog Mock.loaded
           [("phone", "2"); ("exit now", "9")] "EXIT" ["laptop"; "1"]).
  - vm_compute; reflexivity.
  - repeat constructor.
  - reflexivity.
Defined.

(** In a session where no typed line is [2] or [3], no request is sent to
    the language model. *)
Theorem main_no_request_without_choice (W : services) (G : globals)
    (inputs : list string) (req : request) :
  "2"%string ∉ inputs ->
  "3"%string ∉ inputs ->
  Call (PostCall req) ∉ (main G inputs).1.
Proof.
  intros H2 H3 (query & choice & m & Hc & Hm & He)%main_calls.
  unfold dispatch in Hm.
  destruct (String.eqb_spec choice "1").
  - injection Hm as <-. rewrite calls_bind_silent in He by done.
    rewrite search_products_calls in He.
    repeat (apply elem_of_cons in He as [?|He]; [done|]). by apply elem_of_nil in He.
  - destruct (String.eqb_spec choice "2"); [by subst|].
    destruct (String.eqb_spec choice "3"); [by subst | done].
Qed.

Lemma main_no_request_without_choice_witness :
  ("2"%string ∉ ["phone"; "1"; "laptop"; "x"; "exit"]) ∧
  ("3"%string ∉ ["phone"; "1"; "laptop"; "x"; "exit"]) ∧
  Call (PostCall (@build_request (Mock.answering [2; 1]%Z) "any"))
    ∉ (@main (Mock.answering [2; 1]%Z) Mock.loaded
         ["phone"; "1"; "laptop"; "x"; "exit"]).1.
Proof.
  assert ("2"%string ∉ ["phone"; "1"; "laptop"; "x"; "exit"]) as H2.
  { apply (bool_decide_unpack _). vm_compute. exact I. }
  assert ("3"%string ∉ ["phone"; "1"; "laptop"; "x"; "exit"]) as H3.
  { apply (bool_decide_unpack _). vm_compute. exact I. }
  split; [exact H2|]. split; [exact H3|].
  apply (main_no_request_without_choice (Mock.answering [2; 1]%Z) Mock.loaded
           ["phone"; "1"; "laptop"; "x"; "exit"]
           (@build_request (Mock.answering [2; 1]%Z) "any")).
  - exact H2.
  - exact H3.
Defined.

(** In a session where no typed line is [1], [2] or [3], every choice is
    refused and no collaborator is called at all. *)
Theorem main_invalid_choices_call_nothing (W : services) (G : globals)
    (inputs : list string) (e : event) :
  Forall (fun line => line ≠ "1"%string ∧ line ≠ "2"%string ∧ line ≠ "3"%string) inputs ->
  Call e ∉ (main G inputs).1.
Proof.
  intros Hall (query & choice & m & Hc & Hm & _)%main_calls.
  rewrite Forall_forall in Hall. destruct (Hall _ Hc) as (H1 & H2 & H3).
  unfold dispatch in Hm.
  destruct (String.eqb_spec choice "1"); [done|].
  destruct (String.eqb_spec choice "2"); [done|].
  destruct (String.eqb_spec choice "3"); done.
Qed.

Lemma main_invalid_choices_call_nothing_witness :
  Forall (fun line => line ≠ "1"%string ∧ line ≠ "2"%string ∧ line ≠ "3"%string)
    ["phone"; "one"; "laptop"; ""] ∧
  Call (EncodeCall "phone")
    ∉ (@main (Mock.answering [2; 1]%Z) Mock.loaded ["phone"; "one"; "laptop"; ""]).1.
Proof.
  assert (Forall (fun line => line ≠ "1"%string ∧ line ≠ "2"%string ∧ line ≠ "3"%string)
            ["phone"; "one"; "laptop"; ""]) as Hall.
  { repeat constructor; discriminate. }
  split; [exact Hall|].
  apply (main_invalid_choices_call_nothing (Mock.answering [2; 1]%Z) Mock.loaded
           ["phone"; "one"; "laptop"; ""] (EncodeCall "phone")).
  exact Hall.
Defined.

Lemma ascii_lower_e (c : ascii) :
  ascii_lower c = "e"%char <-> c = "e"%char ∨ c = "E"%char.
Proof.
  destruct c as [[] [] [] [] [] [] [] []]; cbv;
    (split; [intros H; first [discriminate H | by left | by right]
            | intros [H|H]; first [discriminate H | reflexivity]]).
Qed.

Lemma ascii_lower_x (c : ascii) :
  ascii_lower c = "x"%char <-> c = "x"%char ∨ c = "X"%char.
Proof.
  destruct c as [[] [] [] [] [] [] [] []]; cbv;
    (split; [intros H; first [discriminate H | by left | by right]
            | intros [H|H]; first [discriminate H | reflexivity]]).
Qed.

Lemma ascii_lower_i (c : ascii) :
  ascii_lower c = "i"%char <-> c = "i"%char ∨ c = "I"%char.
Proof.
  destruct c as [[] [] [] [] [] [] [] []]; cbv;
    (split; [intros H; first [discriminate H | by left | by right]
            | intros [H|H]; first [discriminate H | reflexivity]]).
Qed.

Lemma ascii_lower_t (c : ascii) :
  ascii_lower c = "t"%char <-> c = "t"%char ∨ c = "T"%char.
Proof.
  destruct c as [[] [] [] [] [] [] [] []]; cbv;
    (split; [intros H; first [discriminate H | by left | by right]
            | intros [H|H]; first [discriminate H | reflexivity]]).
Qed.

(** The loop ends exactly on the four letters of [exit], each in upper or
    lower case: a query with anything more, a space included, is searched
    for. *)
Theorem is_exit_spellings (query : string) :
  is_exit query = true <->
  exists c1 c2 c3 c4,
    query = String c1 (String c2 (String c3 (String c4 EmptyString))) ∧
    (c1 = "e"%char ∨ c1 = "E"%char) ∧ (c2 = "x"%char ∨ c2 = "X"%char) ∧
    (c3 = "i"%char ∨ c3 = "I"%char) ∧ (c4 = "t"%char ∨ c4 = "T"%char).
Proof.
  unfold is_exit. rewrite String.eqb_eq. split.
  - destruct query as [|c1 [|c2 [|c3 [|c4 [|c5 query]]]]]; cbn [lower_bytes];
      intros H; try discriminate H.
    injection H as H1 H2 H3 H4.
    exists c1, c2, c3, c4. split; [done|].
    by rewrite <- ascii_lower_e, <- ascii_lower_x, <- ascii_lower_i, <- ascii_lower_t.
  - intros (c1 & c2 & c3 & c4 & -> & H1 & H2 & H3 & H4). cbn [lower_bytes].
    apply ascii_lower_e in H1. apply ascii_lower_x in H2.
    apply ascii_lower_i in H3. apply ascii_lower_t in H4.
    by rewrite H1, H2, H3, H4.
Qed.

(** A round that picks the semantic search while the service does not
    respond shows the request, the diagnostic and then the same line as a
    search without results, and the loop goes on. *)
Theorem main_failed_ranking (W : services) (G : globals) (query : string)
    (rest : list string) :
  is_exit query = false ->
  post (build_request (build_prompt query (build_context (products G)) 3)) = NoResponse ->
  main G (query :: "2"%string :: rest) =
  ((Asked QUERY_PROMPT query :: menu ++ [Asked CHOICE_PROMPT "2"])
     ++ [Call (PostCall (build_request (build_prompt query (build_context (products G)) 3)));
         Call (PrintError RequestError);
         Printed "Нічого не знайдено"]
     ++ (main G rest).1,
   (main G rest).2).
Proof.
  intros Hq Hpost. rewrite main_round by done.
  change (dispatch G query "2")
    with (Some (results <- semantic_search query (products G) 3 ;;
                ret (CatalogItem <$> results))).
  rewrite (semantic_search_raised query (products G) 3 RequestError).
  - done.
  - unfold fetch_indices, http_post. rewrite Hpost. done.
Qed.

Lemma main_failed_ranking_witness :
  is_exit "phone" = false ∧
  @post Mock.unreachable
    (@build_request Mock.unreachable
       (build_prompt "phone" (@build_context Mock.unreachable (products Mock.loaded)) 3))
    = NoResponse ∧
  @main Mock.unreachable Mock.loaded ("phone" :: "2"%string :: ["exit"]) =
  ((Asked QUERY_PROMPT "phone" :: menu ++ [Asked CHOICE_PROMPT "2"])
     ++ [Call (PostCall (@build_request Mock.unreachable
                           (build_prompt "phone"
                              (@build_context Mock.unreachable (products Mock.loaded)) 3)));
         Call (PrintError RequestError);
         Printed "Нічого не знайдено"]
     ++ (@main Mock.unreachable Mock.loaded ["exit"]).1,
   (@main Mock.unreachable Mock.loaded ["exit"]).2).
Proof.
  split; [reflexivity|]. split; [reflexivity|].
  apply (main_failed_ranking Mock.unreachable Mock.loaded "phone" ["exit"]).
  - reflexivity.
  - reflexivity.
Defined.

(** ** Answers of another shape *)

Section Shapes.
Context `{W : services}.

Lemma map_indices_not_a_list (products_data : list product) (v : json)
    (out : list product) :
  (forall l, v ≠ JList l) ->
  outcome (map_indices products_data v) = Ok out -> out = [].
Proof.
  intros Hv. unfold map_indices. destruct v as [|b|z|f|s|l|d]; try done.
  - cbn [py_iter]. rewrite bind_lift_Ok.
    destruct (list_ascii_of_string s) as [|c cs]; [by intros [= <-]|].
    rewrite fmap_cons. cbn [comprehension]. rewrite outcome_bind.
    by rewrite other_element_raises.
  - by destruct (Hv l).
  - cbn [py_iter]. rewrite bind_lift_Ok.
    destruct d as [|kv d]; [by intros [= <-]|].
    rewrite fmap_cons. cbn [comprehension]. rewrite outcome_bind.
    by rewrite other_element_raises.
Qed.

End Shapes.

(** Only a list under [results] can yield products: if the value is null,
    a boolean, a number, a string or an object, the result is the empty
    list. *)
Theorem semantic_search_results_not_a_list (W : services) (query : string)
    (products_data : list product) (top_k : Z) (v : json) :
  outcome (fetch_indices (build_prompt query (build_context products_data) top_k)) = Ok v ->
  (forall l, v ≠ JList l) ->
  outcome (semantic_search query products_data top_k) = Ok [].
Proof.
  intros Hfetch Hv. rewrite semantic_search_run, outcome_bind, Hfetch.
  destruct (outcome (map_indices products_data v)) as [out|e] eqn:Hout; [|done].
  by rewrite (map_indices_not_a_list _ _ _ Hv Hout).
Qed.

Lemma semantic_search_results_not_a_list_witness :
  outcome (@fetch_indices (Faults.answering (JStr "12"))
             (build_prompt "phone"
                (@build_context (Faults.answering (JStr "12")) Mock.catalog) 3))
    = Ok (JStr "12") ∧
  (forall l, JStr "12" ≠ JList l) ∧
  outcome (@semantic_search (Faults.answering (JStr "12")) "phone" Mock.catalog 3) = Ok [].
Proof.
  split; [vm_compute; reflexivity|]. split; [discriminate|].
  apply (semantic_search_results_not_a_list (Faults.answering (JStr "12")) "phone"
           Mock.catalog 3 (JStr "12")).
  - vm_compute; reflexivity.
  - discriminate.
Defined.

(** A 2xx response whose body is a JSON object without the key [choices]
    (an error object, for one) is reported as a missing key and gives the
    empty list. *)
Theorem semantic_search_missing_choices (W : services) (query : string)
    (products_data : list product) (top_k : Z) (status : Z) (body : string)
    (d : list (string * json)) :
  post (build_request (build_prompt query (build_context products_data) top_k))
    = Response status body ->
  (200 ≤ status ≤ 299)%Z ->
  json_loads body = Some (JDict d) ->
  dict_get "choices" d = None ->
  semantic_search query products_data top_k =
  ([PostCall (build_request (build_prompt query (build_context products_data) top_k));
    PrintError KeyError],
   Ok []).
Proof.
  intros Hpost Hstatus Hbody Hd. apply semantic_search_raised.
  unfold fetch_indices, http_post. rewrite Hpost.
  cbn. rewrite (proj2 (Z.leb_le 200 status)), (proj2 (Z.leb_le status 299)) by lia.
  cbn. rewrite Hbody. cbn. by rewrite Hd.
Qed.

Lemma semantic_search_missing_choices_witness :
  @post (Faults.replying (Response 200 (Mock.content [1]%Z)))
    (@build_request (Faults.replying (Response 200 (Mock.content [1]%Z)))
       (build_prompt "phone"
          (@build_context (Faults.replying (Response 200 (Mock.content [1]%Z)))
             Mock.catalog) 3))
    = Response 200 (Mock.content [1]%Z) ∧
  (200 ≤ 200 ≤ 299)%Z ∧
  @json_loads (Faults.replying (Response 200 (Mock.content [1]%Z))) (Mock.content [1]%Z)
    = Some (JDict [("results", JList [JInt 1])]) ∧
  dict_get "choices" [("results", JList [JInt 1])] = None ∧
  @semantic_search (Faults.replying (Response 200 (Mock.content [1]%Z))) "phone"
    Mock.catalog 3 =
  ([PostCall (@build_request (Faults.replying (Response 200 (Mock.content [1]%Z)))
                (build_prompt "phone"
                   (@build_context (Faults.replying (Response 200 (Mock.content [1]%Z)))
                      Mock.catalog) 3));
    PrintError KeyError],
   Ok []).
Proof.
  split; [reflexivity|]. split; [lia|]. split; [vm_compute; reflexivity|].
  split; [reflexivity|].
  apply (semantic_search_missing_choices (Faults.replying (Response 200 (Mock.content [1]%Z)))
           "phone" Mock.catalog 3 200 (Mock.content [1]%Z) [("results", JList [JInt 1])]).
  - reflexivity.
  - lia.
  - vm_compute; reflexivity.
  - reflexivity.
Defined.
